(** * butterfly/boundarycondition.py: OpenFOAM boundary conditions

    A shallow embedding of [butterfly.boundarycondition] and the properties
    of its constructors, of [tryGetField] and of [duplicate].

    Python objects are modelled as their attribute dictionaries
    ([gmap string PyValue]); a constructor call is a computation in the
    exception monad [result], so that a raising constructor hands no object
    to its caller.  The module [fields] is imported by the source but is a
    separate file: everything the source asks of it is gathered in the class
    [FieldsModule], and the development is parametric in it. *)

From Stdlib Require Import ZArith String Ascii.
From stdpp Require Import base option numbers list strings gmap fin_maps.

Set Warnings "-register-all".
Local Open Scope string_scope.
Local Open Scope Z_scope.

(** ** Python values *)

(** The values that reach this module as arguments.  [Field] is the type of
    the instances of [fields.Field] (and of its subclasses). *)
Inductive PyValue {Field : Type} : Type :=
| PNone
| PBool (b : bool)
| PInt (z : Z)
| PStr (s : string)
| PList (l : list PyValue)
| PTuple (l : list PyValue)
| PDict (d : list (PyValue * PyValue))
| PField (f : Field).
Arguments PyValue : clear implicits.

(** Exceptions: the class, the message template and the value formatted in. *)
Inductive PyExc {Field : Type} : Type :=
| ValueError (template : string) (arg : PyValue Field)
| TypeError (template : string) (arg : PyValue Field)
| OtherError (name : string).
Arguments PyExc : clear implicits.

Inductive result (E A : Type) : Type :=
| Ok (a : A)
| Raise (e : E).
Arguments Ok {E A} a.
Arguments Raise {E A} e.

#[global] Instance result_ret {E} : MRet (result E) := fun _ a => Ok a.
#[global] Instance result_bind {E} : MBind (result E) := fun _ _ f m =>
  match m with
  | Ok a => f a
  | Raise e => Raise e
  end.

Definition raises {E A} (m : result E A) : Prop :=
  match m with
  | Ok _ => False
  | Raise _ => True
  end.

Definition returns {E A} (m : result E A) : Prop :=
  match m with
  | Ok _ => True
  | Raise _ => False
  end.

(** Python's truth value testing ([bool(v)]).  An instance of Field is taken
    to be true, which is Python's rule for a class that defines neither
    [__nonzero__] nor [__len__]; the defaults of the specializations, which
    pass through [x or ZeroGradient()] in the setters of the base, rely on
    it. *)
Definition truthy {Field} (v : PyValue Field) : bool :=
  match v with
  | PNone => false
  | PBool b => b
  | PInt z => negb (z =? 0)
  | PStr s => negb (String.eqb s "")
  | PList l | PTuple l => negb (Nat.eqb (length l) 0)
  | PDict d => negb (Nat.eqb (length d) 0)
  | PField _ => true
  end.

(** [a or b] *)
Definition py_or {Field} (a b : PyValue Field) : PyValue Field :=
  if truthy a then a else b.

(** [isinstance(v, Field)] and [isinstance(v, (dict, OrderedDict))] *)
Definition isinstance_Field {Field} (v : PyValue Field) : bool :=
  match v with PField _ => true | _ => false end.

Definition isinstance_dict {Field} (v : PyValue Field) : bool :=
  match v with PDict _ => true | _ => false end.

(** *** [int(v)] and iteration, as used on [refLevels] *)

Definition is_space (c : ascii) : bool :=
  let n := nat_of_ascii c in
  (Nat.eqb n 32 || (Nat.leb 9 n && Nat.leb n 13))%bool.

Definition digit_of_ascii (c : ascii) : option Z :=
  let n := nat_of_ascii c in
  if (Nat.leb 48 n && Nat.leb n 57)%bool then Some (Z.of_nat (n - 48)) else None.

Fixpoint parse_digits (acc : Z) (l : list ascii) : option Z :=
  match l with
  | [] => Some acc
  | c :: l' =>
      match digit_of_ascii c with
      | Some d => parse_digits (10 * acc + d) l'
      | None => None
      end
  end.

Fixpoint lstrip (l : list ascii) : list ascii :=
  match l with
  | c :: l' => if is_space c then lstrip l' else l
  | [] => []
  end.

Definition strip (l : list ascii) : list ascii :=
  rev (lstrip (rev (lstrip l))).

(** [int(s)] for a string: surrounding blanks, an optional sign, decimal
    digits. *)
Definition int_of_string (s : string) : option Z :=
  match strip (list_ascii_of_string s) with
  | [] => None
  | c :: ds =>
      if Ascii.eqb c "-" then
        match ds with [] => None | _ => Z.opp <$> parse_digits 0 ds end
      else if Ascii.eqb c "+" then
        match ds with [] => None | _ => parse_digits 0 ds end
      else parse_digits 0 (c :: ds)
  end.

Definition py_int {Field} (v : PyValue Field) : result (PyExc Field) Z :=
  match v with
  | PInt z => Ok z
  | PBool b => Ok (if b then 1 else 0)
  | PStr s =>
      match int_of_string s with
      | Some z => Ok z
      | None => Raise (ValueError "invalid literal for int() with base 10: {!r}" v)
      end
  | _ => Raise (TypeError "int() argument must be a string or a number, not {!r}" v)
  end.

(** The elements a [for] loop draws from [v]. *)
Definition py_iter {Field} (v : PyValue Field)
  : result (PyExc Field) (list (PyValue Field)) :=
  match v with
  | PList l | PTuple l => Ok l
  | PStr s => Ok ((fun c => PStr (String c "")) <$> list_ascii_of_string s)
  | PDict d => Ok (d.*1)
  | _ => Raise (TypeError "{!r} object is not iterable" v)
  end.

(** [tuple(f(v) for v in l)]: the elements are converted in order and the
    first exception ends the loop. *)
Fixpoint py_map {E A B} (f : A -> result E B) (l : list A) : result E (list B) :=
  match l with
  | [] => Ok []
  | x :: l' => y ← f x; ys ← py_map f l'; Ok (y :: ys)
  end.

(** ** The [fields] module *)

(** The classes that [boundarycondition.py] imports from [fields]. *)
Module fields.
Inductive cls : Set :=
| AtmBoundaryLayerInletVelocity | AtmBoundaryLayerInletK
| AtmBoundaryLayerInletEpsilon | Calculated | EpsilonWallFunction
| FixedValue | InletOutlet | KqRWallFunction | NutkWallFunction
| NutkAtmRoughWallFunction | Slip | ZeroGradient
| AlphatJayatillekeWallFunction | FixedFluxPressure | Empty | Field.
End fields.

(** The literals the source passes to the constructors of [fields]. *)
Inductive Literal : Set :=
| LStr (s : string)
| LFloat (decimal : string)
| LBool (b : bool).

(** What the source uses of [fields], which is not part of this file:
    [Field_new c args kwargs] is the call [c(args..., kwargs...)],
    [Field_fromABLConditions c abl args] is [c.fromABLConditions(abl, args...)],
    and the two class methods of [Field] either return an instance or
    raise. *)
Class FieldsModule (Field ABLConditions : Type) := {
  Field_new : fields.cls -> list Literal -> list (string * Literal) -> Field;
  Field_fromABLConditions : fields.cls -> ABLConditions -> list Literal -> Field;
  Field_fromDict : PyValue Field -> result (PyExc Field) Field;
  Field_fromString : PyValue Field -> result (PyExc Field) Field;
}.

Section BoundaryCondition.
Context {Field ABLConditions : Type} `{!FieldsModule Field ABLConditions}.

Local Abbreviation Value := (PyValue Field).
Local Abbreviation Exc := (PyExc Field).
(** An instance is its [__dict__]. *)
Local Abbreviation PyObject := (gmap string (PyValue Field)).

(** A constructor call of [fields], as a value *)
Definition new (c : fields.cls) (args : list Literal)
           (kwargs : list (string * Literal)) : Value :=
  PField (Field_new c args kwargs).

Definition ZeroGradient : Value := new fields.ZeroGradient [] [].

(** *** BoundaryCondition.tryGetField *)
Definition tryGetField (f : Value) : result Exc Value :=
  if isinstance_Field f then Ok f
  else if isinstance_dict f then fld ← Field_fromDict f; Ok (PField fld)
  else
    match Field_fromString f with
    | Ok fld => Ok (PField fld)
    | Raise _ =>
        Raise (ValueError
          "Failed to create an OpenFOAM field from {}. Use a valid value." f)
    end.

(** *** The property setters *)
Definition set_T (self : PyObject) (t : Value) : result Exc PyObject :=
  f ← tryGetField (py_or t ZeroGradient); Ok (<["_T" := f]> self).

Definition set_U (self : PyObject) (u : Value) : result Exc PyObject :=
  f ← tryGetField (py_or u ZeroGradient); Ok (<["_U" := f]> self).

Definition set_p (self : PyObject) (p : Value) : result Exc PyObject :=
  f ← tryGetField (py_or p ZeroGradient); Ok (<["_p" := f]> self).

Definition set_k (self : PyObject) (k_ : Value) : result Exc PyObject :=
  f ← tryGetField (py_or k_ ZeroGradient); Ok (<["_k" := f]> self).

Definition set_epsilon (self : PyObject) (e : Value) : result Exc PyObject :=
  f ← tryGetField (py_or e ZeroGradient); Ok (<["_epsilon" := f]> self).

Definition set_nut (self : PyObject) (n : Value) : result Exc PyObject :=
  f ← tryGetField (py_or n ZeroGradient); Ok (<["_nut" := f]> self).

Definition set_alphat (self : PyObject) (a : Value) : result Exc PyObject :=
  f ← tryGetField (py_or a ZeroGradient); Ok (<["_alphat" := f]> self).

Definition set_p_rgh (self : PyObject) (prgh : Value) : result Exc PyObject :=
  f ← tryGetField (py_or prgh ZeroGradient); Ok (<["_p_rgh" := f]> self).

(** *** BoundaryCondition.__init__ *)

(** [(1, 1) if not refLevels else tuple(int(v) for v in refLevels)] *)
Definition normalize_refLevels (refLevels : Value) : result Exc Value :=
  if negb (truthy refLevels) then Ok (PTuple [PInt 1; PInt 1])
  else
    vs ← py_iter refLevels;
    ns ← py_map py_int vs;
    Ok (PTuple (PInt <$> ns)).

(** The arguments of [BoundaryCondition.__init__], after [self]. *)
Record InitArgs : Type := {
  a_bcType : Value;
  a_refLevels : Value;
  a_T : Value;
  a_U : Value;
  a_p : Value;
  a_k : Value;
  a_epsilon : Value;
  a_nut : Value;
  a_alphat : Value;
  a_p_rgh : Value;
}.

Definition BoundaryCondition__init__ (self : PyObject) (a : InitArgs)
  : result Exc PyObject :=
  let self := <["type" := a_bcType a]> self in
  rl ← normalize_refLevels (a_refLevels a);
  let self := <["refLevels" := rl]> self in
  self ← set_T self (a_T a);
  self ← set_U self (a_U a);
  self ← set_p self (a_p a);
  self ← set_k self (a_k a);
  self ← set_epsilon self (a_epsilon a);
  self ← set_nut self (a_nut a);
  self ← set_alphat self (a_alphat a);
  self ← set_p_rgh self (a_p_rgh a);
  Ok self.

(** [BoundaryCondition(bcType, refLevels, T, U, p, k, epsilon, nut, alphat,
    p_rgh)]: a fresh object, initialised; [PNone] stands for an omitted
    argument ([bcType] defaults to ['patch']). *)
Definition BoundaryCondition (bcType refLevels T U p k epsilon nut alphat p_rgh : Value)
  : result Exc PyObject :=
  BoundaryCondition__init__ ∅
    {| a_bcType := bcType; a_refLevels := refLevels; a_T := T; a_U := U;
       a_p := p; a_k := k; a_epsilon := epsilon; a_nut := nut;
       a_alphat := alphat; a_p_rgh := p_rgh |}.

(** ** The specializations

    Each constructor rebinds its arguments and calls the base initialiser;
    [X_args] is the argument list of that call and [X] the constructor. *)

Definition wall : Value := PStr "wall".
Definition patch : Value := PStr "patch".

(** *** BoundingBoxBoundaryCondition *)
Definition BoundingBoxBoundaryCondition_args (refLevels : Value) : InitArgs :=
  let U := new fields.ZeroGradient [] [] in
  let p := new fields.ZeroGradient [] [] in
  let k := new fields.ZeroGradient [] [] in
  let epsilon := new fields.ZeroGradient [] [] in
  let nut := new fields.ZeroGradient [] [] in
  let refLevels := PNone in
  let T := new fields.ZeroGradient [] [] in
  let alphat := new fields.ZeroGradient [] [] in
  let p_rgh := new fields.ZeroGradient [] [] in
  {| a_bcType := wall; a_refLevels := refLevels; a_T := T; a_U := U; a_p := p;
     a_k := k; a_epsilon := epsilon; a_nut := nut; a_alphat := alphat;
     a_p_rgh := p_rgh |}.

Definition BoundingBoxBoundaryCondition (refLevels : Value) : result Exc PyObject :=
  BoundaryCondition__init__ ∅ (BoundingBoxBoundaryCondition_args refLevels).

(** *** EmptyBoundaryCondition *)
Definition EmptyBoundaryCondition_args (refLevels : Value) : InitArgs :=
  let U := new fields.Empty [] [] in
  let p := new fields.Empty [] [] in
  let k := new fields.Empty [] [] in
  let epsilon := new fields.Empty [] [] in
  let nut := new fields.Empty [] [] in
  let refLevels := PNone in
  let T := new fields.Empty [] [] in
  let alphat := new fields.Empty [] [] in
  let p_rgh := new fields.Empty [] [] in
  {| a_bcType := wall; a_refLevels := refLevels; a_T := T; a_U := U; a_p := p;
     a_k := k; a_epsilon := epsilon; a_nut := nut; a_alphat := alphat;
     a_p_rgh := p_rgh |}.

Definition EmptyBoundaryCondition (refLevels : Value) : result Exc PyObject :=
  BoundaryCondition__init__ ∅ (EmptyBoundaryCondition_args refLevels).

(** *** IndoorWallBoundaryCondition *)
Definition IndoorWallBoundaryCondition_args
  (refLevels T U p k epsilon nut alphat p_rgh : Value) : InitArgs :=
  let U := py_or U (new fields.FixedValue [LStr "(0 0 0)"] []) in
  let p := py_or p (new fields.ZeroGradient [] []) in
  let k := py_or k (new fields.KqRWallFunction [LStr "0.1"] []) in
  let epsilon := py_or epsilon (new fields.EpsilonWallFunction [LFloat "0.01"] []) in
  let nut := py_or nut (new fields.NutkWallFunction [LFloat "0.01"] []) in
  let T := py_or T (new fields.ZeroGradient [] []) in
  let alphat := py_or alphat (new fields.AlphatJayatillekeWallFunction []
      [("value", LStr "0"); ("isUniform", LBool true); ("Prt", LStr "0.85")]) in
  let p_rgh := py_or p_rgh (new fields.FixedFluxPressure []
      [("value", LStr "0"); ("isUniform", LBool true); ("rho", LStr "rhok")]) in
  {| a_bcType := wall; a_refLevels := refLevels; a_T := T; a_U := U; a_p := p;
     a_k := k; a_epsilon := epsilon; a_nut := nut; a_alphat := alphat;
     a_p_rgh := p_rgh |}.

Definition IndoorWallBoundaryCondition
  (refLevels T U p k epsilon nut alphat p_rgh : Value) : result Exc PyObject :=
  BoundaryCondition__init__ ∅
    (IndoorWallBoundaryCondition_args refLevels T U p k epsilon nut alphat p_rgh).

(** *** FixedInletBoundaryCondition *)
Definition FixedInletBoundaryCondition_args
  (refLevels T U p k epsilon nut alphat p_rgh : Value) : InitArgs :=
  let U := py_or U (new fields.FixedValue [LStr "(0 0 0)"] []) in
  let p := py_or p (new fields.ZeroGradient [] []) in
  let k := py_or k (new fields.FixedValue [LStr "0.1"] []) in
  let epsilon := py_or epsilon (new fields.FixedValue [LStr "0.01"] []) in
  let nut := new fields.Calculated [LStr "0"] [] in
  let T := if truthy T then T else PNone in
  let alphat := new fields.ZeroGradient [] [] in
  let p_rgh := new fields.ZeroGradient [] [] in
  {| a_bcType := patch; a_refLevels := refLevels; a_T := T; a_U := U; a_p := p;
     a_k := k; a_epsilon := epsilon; a_nut := nut; a_alphat := alphat;
     a_p_rgh := p_rgh |}.

Definition FixedInletBoundaryCondition
  (refLevels T U p k epsilon nut alphat p_rgh : Value) : result Exc PyObject :=
  BoundaryCondition__init__ ∅
    (FixedInletBoundaryCondition_args refLevels T U p k epsilon nut alphat p_rgh).

(** *** FixedOutletBoundaryCondition *)
Definition FixedOutletBoundaryCondition_args
  (refLevels T U p k epsilon nut alphat p_rgh : Value) : InitArgs :=
  let U := py_or U (new fields.ZeroGradient [] []) in
  let p := py_or p (new fields.FixedValue [LStr "0"] []) in
  let k := py_or k (new fields.ZeroGradient [] []) in
  let epsilon := py_or epsilon (new fields.ZeroGradient [] []) in
  let nut := new fields.Calculated [LStr "0"] [] in
  let T := py_or T (new fields.ZeroGradient [] []) in
  let alphat := new fields.ZeroGradient [] [] in
  let p_rgh := new fields.ZeroGradient [] [] in
  {| a_bcType := patch; a_refLevels := refLevels; a_T := T; a_U := U; a_p := p;
     a_k := k; a_epsilon := epsilon; a_nut := nut; a_alphat := alphat;
     a_p_rgh := p_rgh |}.

Definition FixedOutletBoundaryCondition
  (refLevels T U p k epsilon nut alphat p_rgh : Value) : result Exc PyObject :=
  BoundaryCondition__init__ ∅
    (FixedOutletBoundaryCondition_args refLevels T U p k epsilon nut alphat p_rgh).

(** *** WindTunnelWallBoundaryCondition

    The base is called with eight arguments: [alphat] and [p_rgh] take its
    default, [None]. *)
Definition WindTunnelWallBoundaryCondition_args
  (refLevels T U p k epsilon nut : Value) : InitArgs :=
  let U := py_or U (new fields.FixedValue [LStr "(0 0 0)"] []) in
  let p := py_or p (new fields.ZeroGradient [] []) in
  let k := py_or k (new fields.KqRWallFunction [LStr "$internalField"]
                      [("isUnifrom", LBool false)]) in
  let epsilon := py_or epsilon (new fields.EpsilonWallFunction
                      [LStr "$internalField"] [("isUnifrom", LBool false)]) in
  let nut := py_or nut (new fields.NutkWallFunction [LStr "0.0"] []) in
  let T := py_or T (new fields.ZeroGradient [] []) in
  {| a_bcType := wall; a_refLevels := refLevels; a_T := T; a_U := U; a_p := p;
     a_k := k; a_epsilon := epsilon; a_nut := nut; a_alphat := PNone;
     a_p_rgh := PNone |}.

Definition WindTunnelWallBoundaryCondition
  (refLevels T U p k epsilon nut : Value) : result Exc PyObject :=
  BoundaryCondition__init__ ∅
    (WindTunnelWallBoundaryCondition_args refLevels T U p k epsilon nut).

(** *** WindTunnelGroundBoundaryCondition *)
Definition WindTunnelGroundBoundaryCondition_args (ablConditions : ABLConditions)
  (refLevels T U p k epsilon : Value) : InitArgs :=
  let U := py_or U (new fields.FixedValue [LStr "(0 0 0)"] []) in
  let p := py_or p (new fields.ZeroGradient [] []) in
  let k := py_or k (new fields.ZeroGradient [] []) in
  let epsilon := py_or epsilon (new fields.ZeroGradient [] []) in
  let nut := PField (Field_fromABLConditions fields.NutkAtmRoughWallFunction
                       ablConditions [LStr "uniform 0"]) in
  let T := py_or T (new fields.ZeroGradient [] []) in
  {| a_bcType := wall; a_refLevels := refLevels; a_T := T; a_U := U; a_p := p;
     a_k := k; a_epsilon := epsilon; a_nut := nut; a_alphat := PNone;
     a_p_rgh := PNone |}.

Definition WindTunnelGroundBoundaryCondition (ablConditions : ABLConditions)
  (refLevels T U p k epsilon : Value) : result Exc PyObject :=
  BoundaryCondition__init__ ∅
    (WindTunnelGroundBoundaryCondition_args ablConditions refLevels T U p k epsilon).

(** *** WindTunnelInletBoundaryCondition *)
Definition WindTunnelInletBoundaryCondition_args (ablConditions : ABLConditions)
  (refLevels T p nut : Value) : InitArgs :=
  let U := PField (Field_fromABLConditions fields.AtmBoundaryLayerInletVelocity
                     ablConditions []) in
  let k := PField (Field_fromABLConditions fields.AtmBoundaryLayerInletK
                     ablConditions []) in
  let epsilon := PField (Field_fromABLConditions fields.AtmBoundaryLayerInletEpsilon
                           ablConditions []) in
  let p := py_or p (new fields.ZeroGradient [] []) in
  let nut := py_or nut (new fields.Calculated [LStr "0"] []) in
  let T := py_or T (new fields.ZeroGradient [] []) in
  {| a_bcType := patch; a_refLevels := refLevels; a_T := T; a_U := U; a_p := p;
     a_k := k; a_epsilon := epsilon; a_nut := nut; a_alphat := PNone;
     a_p_rgh := PNone |}.

Definition WindTunnelInletBoundaryCondition (ablConditions : ABLConditions)
  (refLevels T p nut : Value) : result Exc PyObject :=
  BoundaryCondition__init__ ∅
    (WindTunnelInletBoundaryCondition_args ablConditions refLevels T p nut).

(** *** WindTunnelOutletBoundaryCondition *)
Definition WindTunnelOutletBoundaryCondition_args
  (refLevels T U p k epsilon nut : Value) : InitArgs :=
  let U := py_or U (new fields.InletOutlet
                      [LStr "uniform (0 0 0)"; LStr "$internalField"] []) in
  let p := py_or p (new fields.FixedValue [LStr "$pressure"] []) in
  let k := py_or k (new fields.InletOutlet
                      [LStr "uniform $turbulentKE"; LStr "$internalField"] []) in
  let epsilon := py_or epsilon (new fields.InletOutlet
                      [LStr "uniform $turbulentEpsilon"; LStr "$internalField"] []) in
  let nut := py_or nut (new fields.Calculated [LStr "0"] []) in
  let T := py_or T (new fields.ZeroGradient [] []) in
  {| a_bcType := patch; a_refLevels := refLevels; a_T := T; a_U := U; a_p := p;
     a_k := k; a_epsilon := epsilon; a_nut := nut; a_alphat := PNone;
     a_p_rgh := PNone |}.

Definition WindTunnelOutletBoundaryCondition
  (refLevels T U p k epsilon nut : Value) : result Exc PyObject :=
  BoundaryCondition__init__ ∅
    (WindTunnelOutletBoundaryCondition_args refLevels T U p k epsilon nut).

(** *** WindTunnelTopAndSidesBoundaryCondition *)
Definition WindTunnelTopAndSidesBoundaryCondition_args
  (refLevels T U p k epsilon nut : Value) : InitArgs :=
  let U := py_or U (new fields.Slip [] []) in
  let p := py_or p (new fields.Slip [] []) in
  let k := py_or k (new fields.Slip [] []) in
  let epsilon := py_or epsilon (new fields.Slip [] []) in
  let nut := new fields.Calculated [LStr "0"] [] in
  let T := py_or T (new fields.ZeroGradient [] []) in
  {| a_bcType := patch; a_refLevels := refLevels; a_T := T; a_U := U; a_p := p;
     a_k := k; a_epsilon := epsilon; a_nut := nut; a_alphat := PNone;
     a_p_rgh := PNone |}.

Definition WindTunnelTopAndSidesBoundaryCondition
  (refLevels T U p k epsilon nut : Value) : result Exc PyObject :=
  BoundaryCondition__init__ ∅
    (WindTunnelTopAndSidesBoundaryCondition_args refLevels T U p k epsilon nut).

(** *** The construction entry points, gathered *)

Inductive Call : Type :=
| CallBoundaryCondition (bcType refLevels T U p k epsilon nut alphat p_rgh : Value)
| CallBoundingBox (refLevels : Value)
| CallEmpty (refLevels : Value)
| CallIndoorWall (refLevels T U p k epsilon nut alphat p_rgh : Value)
| CallFixedInlet (refLevels T U p k epsilon nut alphat p_rgh : Value)
| CallFixedOutlet (refLevels T U p k epsilon nut alphat p_rgh : Value)
| CallWindTunnelWall (refLevels T U p k epsilon nut : Value)
| CallWindTunnelGround (ablConditions : ABLConditions) (refLevels T U p k epsilon : Value)
| CallWindTunnelInlet (ablConditions : ABLConditions) (refLevels T p nut : Value)
| CallWindTunnelOutlet (refLevels T U p k epsilon nut : Value)
| CallWindTunnelTopAndSides (refLevels T U p k epsilon nut : Value).

Definition run (c : Call) : result Exc PyObject :=
  match c with
  | CallBoundaryCondition bcType refLevels T U p k epsilon nut alphat p_rgh =>
      BoundaryCondition bcType refLevels T U p k epsilon nut alphat p_rgh
  | CallBoundingBox refLevels => BoundingBoxBoundaryCondition refLevels
  | CallEmpty refLevels => EmptyBoundaryCondition refLevels
  | CallIndoorWall refLevels T U p k epsilon nut alphat p_rgh =>
      IndoorWallBoundaryCondition refLevels T U p k epsilon nut alphat p_rgh
  | CallFixedInlet refLevels T U p k epsilon nut alphat p_rgh =>
      FixedInletBoundaryCondition refLevels T U p k epsilon nut alphat p_rgh
  | CallFixedOutlet refLevels T U p k epsilon nut alphat p_rgh =>
      FixedOutletBoundaryCondition refLevels T U p k epsilon nut alphat p_rgh
  | CallWindTunnelWall refLevels T U p k epsilon nut =>
      WindTunnelWallBoundaryCondition refLevels T U p k epsilon nut
  | CallWindTunnelGround abl refLevels T U p k epsilon =>
      WindTunnelGroundBoundaryCondition abl refLevels T U p k epsilon
  | CallWindTunnelInlet abl refLevels T p nut =>
      WindTunnelInletBoundaryCondition abl refLevels T p nut
  | CallWindTunnelOutlet refLevels T U p k epsilon nut =>
      WindTunnelOutletBoundaryCondition refLevels T U p k epsilon nut
  | CallWindTunnelTopAndSides refLevels T U p k epsilon nut =>
      WindTunnelTopAndSidesBoundaryCondition refLevels T U p k epsilon nut
  end.

(** The arguments with which a call reaches the base initialiser. *)
Definition call_args (c : Call) : InitArgs :=
  match c with
  | CallBoundaryCondition bcType refLevels T U p k epsilon nut alphat p_rgh =>
      {| a_bcType := bcType; a_refLevels := refLevels; a_T := T; a_U := U;
         a_p := p; a_k := k; a_epsilon := epsilon; a_nut := nut;
         a_alphat := alphat; a_p_rgh := p_rgh |}
  | CallBoundingBox refLevels => BoundingBoxBoundaryCondition_args refLevels
  | CallEmpty refLevels => EmptyBoundaryCondition_args refLevels
  | CallIndoorWall refLevels T U p k epsilon nut alphat p_rgh =>
      IndoorWallBoundaryCondition_args refLevels T U p k epsilon nut alphat p_rgh
  | CallFixedInlet refLevels T U p k epsilon nut alphat p_rgh =>
      FixedInletBoundaryCondition_args refLevels T U p k epsilon nut alphat p_rgh
  | CallFixedOutlet refLevels T U p k epsilon nut alphat p_rgh =>
      FixedOutletBoundaryCondition_args refLevels T U p k epsilon nut alphat p_rgh
  | CallWindTunnelWall refLevels T U p k epsilon nut =>
      WindTunnelWallBoundaryCondition_args refLevels T U p k epsilon nut
  | CallWindTunnelGround abl refLevels T U p k epsilon =>
      WindTunnelGroundBoundaryCondition_args abl refLevels T U p k epsilon
  | CallWindTunnelInlet abl refLevels T p nut =>
      WindTunnelInletBoundaryCondition_args abl refLevels T p nut
  | CallWindTunnelOutlet refLevels T U p k epsilon nut =>
      WindTunnelOutletBoundaryCondition_args refLevels T U p k epsilon nut
  | CallWindTunnelTopAndSides refLevels T U p k epsilon nut =>
      WindTunnelTopAndSidesBoundaryCondition_args refLevels T U p k epsilon nut
  end.

(** The field arguments a caller supplied, and the level argument. *)
Definition supplied_fields (c : Call) : list Value :=
  match c with
  | CallBoundaryCondition _ _ T U p k epsilon nut alphat p_rgh
  | CallIndoorWall _ T U p k epsilon nut alphat p_rgh
  | CallFixedInlet _ T U p k epsilon nut alphat p_rgh
  | CallFixedOutlet _ T U p k epsilon nut alphat p_rgh =>
      [T; U; p; k; epsilon; nut; alphat; p_rgh]
  | CallBoundingBox _ | CallEmpty _ => []
  | CallWindTunnelWall _ T U p k epsilon nut
  | CallWindTunnelOutlet _ T U p k epsilon nut
  | CallWindTunnelTopAndSides _ T U p k epsilon nut => [T; U; p; k; epsilon; nut]
  | CallWindTunnelGround _ _ T U p k epsilon => [T; U; p; k; epsilon]
  | CallWindTunnelInlet _ _ T p nut => [T; p; nut]
  end.

Definition supplied_refLevels (c : Call) : Value :=
  match c with
  | CallBoundaryCondition _ refLevels _ _ _ _ _ _ _ _
  | CallBoundingBox refLevels | CallEmpty refLevels
  | CallIndoorWall refLevels _ _ _ _ _ _ _ _
  | CallFixedInlet refLevels _ _ _ _ _ _ _ _
  | CallFixedOutlet refLevels _ _ _ _ _ _ _ _
  | CallWindTunnelWall refLevels _ _ _ _ _ _
  | CallWindTunnelGround _ refLevels _ _ _ _ _
  | CallWindTunnelInlet _ refLevels _ _ _
  | CallWindTunnelOutlet refLevels _ _ _ _ _ _
  | CallWindTunnelTopAndSides refLevels _ _ _ _ _ _ => refLevels
  end.

(** *** Vocabulary of the properties *)

(** The attributes behind the eight properties, in the order in which
    [__init__] assigns them, and the arguments assigned to them. *)
Definition field_slots : list string :=
  ["_T"; "_U"; "_p"; "_k"; "_epsilon"; "_nut"; "_alphat"; "_p_rgh"].

Definition field_args (a : InitArgs) : list Value :=
  [a_T a; a_U a; a_p a; a_k a; a_epsilon a; a_nut a; a_alphat a; a_p_rgh a].

Definition holds_Field (self : PyObject) (name : string) : Prop :=
  exists f : Field, self !! name = Some (PField f).

(** The input shapes a field argument is accepted in: omitted, an instance of
    Field, a mapping that [Field.fromDict] takes, anything else that
    [Field.fromString] takes. *)
Definition accepted (v : Value) : Prop :=
  v = PNone \/ isinstance_Field v = true
  \/ (isinstance_dict v = true /\ returns (Field_fromDict v))
  \/ (isinstance_dict v = false /\ returns (Field_fromString v)).

(** An input that is none of these. *)
Definition uninterpretable (v : Value) : Prop :=
  v <> PNone /\ isinstance_Field v = false /\ isinstance_dict v = false
  /\ raises (Field_fromString v).

Definition InvalidFieldSpec (v : Value) : Exc :=
  ValueError "Failed to create an OpenFOAM field from {}. Use a valid value." v.

(** What a property setter hands to [tryGetField], and gets back. *)
Definition coerce (v : Value) : result Exc Value :=
  tryGetField (py_or v ZeroGradient).

(** [self.name = value], for each pair in turn *)
Definition assign (self : PyObject) (items : list (string * Value)) : PyObject :=
  foldl (fun o item => <[item.1 := item.2]> o) self items.

(** [v if v else None] *)
Definition omit_falsy (v : Value) : Value := if truthy v then v else PNone.

Definition omit_falsy_fields (a : InitArgs) : InitArgs :=
  {| a_bcType := a_bcType a; a_refLevels := a_refLevels a;
     a_T := omit_falsy (a_T a); a_U := omit_falsy (a_U a);
     a_p := omit_falsy (a_p a); a_k := omit_falsy (a_k a);
     a_epsilon := omit_falsy (a_epsilon a); a_nut := omit_falsy (a_nut a);
     a_alphat := omit_falsy (a_alphat a); a_p_rgh := omit_falsy (a_p_rgh a) |}.

(** A supplied argument is handed on as it is; the default stands in for an
    argument that is omitted (or false). *)
Definition forwards (default supplied forwarded : Value) : Prop :=
  (truthy supplied = true -> forwarded = supplied)
  /\ (truthy supplied = false -> forwarded = default).

(** The same in the words of the specification, where the default stands in
    for an omitted argument only. *)
Definition forwards_unless_omitted (default supplied forwarded : Value) : Prop :=
  (supplied <> PNone -> forwarded = supplied)
  /\ (supplied = PNone -> forwarded = default).

(** A 2-tuple of ints *)
Definition is_pair_of_ints (v : Value) : Prop :=
  exists m n : Z, v = PTuple [PInt m; PInt n].

End BoundaryCondition.

(** ** A reference model of [fields]

    [fields.py] and [conditions.py] are not part of the source at hand.  The
    properties below hold for every [FieldsModule]; this one serves to
    exhibit instances, and to state what the specification says of the
    fields derived from ABL conditions. *)
Module SpecModel.

(** Modelled from the spec: the ABL-conditions collaborator, "atmospheric-
    boundary-layer parameters (reference height, velocity, roughness)". *)
Record ABL : Set := { Uref : string; Zref : string; z0 : string }.

(** Modelled from the spec: the Field collaborator, "a tagged value
    representing an OpenFOAM field expression", with "two construction paths:
    from a structured mapping (key-value spec) or from a plain scalar/string
    representation"; a field built by a constructor is the record of its
    class and arguments, a field built from ABL conditions carries them. *)
Inductive SField : Type :=
| New (c : fields.cls) (args : list Literal) (kwargs : list (string * Literal))
| FromABL (c : fields.cls) (abl : ABL) (args : list Literal)
| FromDict (d : list (string * string))
| FromString (s : string)
| FromScalar (z : Z).

(** Modelled from the spec: a "well-formed mapping" has string keys and
    string values. *)
Fixpoint str_items (d : list (PyValue SField * PyValue SField))
  : option (list (string * string)) :=
  match d with
  | [] => Some []
  | (PStr key, PStr val) :: d' => cons (key, val) <$> str_items d'
  | _ => None
  end.

(** Modelled from the spec: [Field.fromDict], the construction path "from a
    structured mapping". *)
Definition fromDict (v : PyValue SField) : result (PyExc SField) SField :=
  match v with
  | PDict d =>
      match str_items d with
      | Some l => Ok (FromDict l)
      | None => Raise (OtherError "KeyError")
      end
  | _ => Raise (OtherError "AssertionError")
  end.

(** Modelled from the spec: [Field.fromString], the construction path "from
    a plain scalar/string representation": a string or a number. *)
Definition fromString (v : PyValue SField) : result (PyExc SField) SField :=
  match v with
  | PStr s => Ok (FromString s)
  | PInt z => Ok (FromScalar z)
  | _ => Raise (OtherError "AttributeError")
  end.

#[global] Instance spec_fields : FieldsModule SField ABL := {|
  Field_new := New;
  Field_fromABLConditions := FromABL;
  Field_fromDict := fromDict;
  Field_fromString := fromString;
|}.

(** Modelled from the spec: [field.Uref], which
    [WindTunnelInletBoundaryCondition.__repr__] reads from the U slot; it is
    the "reference velocity" of the conditions the field was derived from. *)
Definition Uref_of (v : option (PyValue SField)) : option string :=
  match v with
  | Some (PField (FromABL _ abl _)) => Some (Uref abl)
  | _ => None
  end.

End SpecModel.

(** ** Objects in a store: [duplicate]

    [duplicate] is about the identity of objects, so here an instance lives
    at an address of a store; its attributes hold either an immutable value
    (the type, the tuple of levels) or a reference to a Field object, which
    has a state of its own and may be shared. *)

Section Store.
Context {Field ABLConditions : Type} `{!FieldsModule Field ABLConditions}.

Local Abbreviation Value := (PyValue Field).
Local Abbreviation Exc := (PyExc Field).

Inductive attr : Type :=
| Imm (v : Value)
| Ref (r : nat).

(** A Field object with its state (all that the object holds, which a deep
    copy copies with it), or an instance with its [__dict__]. *)
Inductive object : Type :=
| FieldObject (state : Field)
| Instance (dict : gmap string attr).

Local Abbreviation store := (gmap nat object).

(** A new object, at an address that is not in use. *)
Definition alloc (σ : store) (o : object) : nat * store :=
  let r := fresh (dom σ) in (r, <[r := o]> σ).

(** [copy.deepcopy(x, memo)] for the value of an attribute: an immutable
    value is returned as it is; an object already copied is looked up in the
    memo; a Field object is copied to a new object, which the memo records. *)
Definition deepcopy_attr (σ : store) (memo : gmap nat nat) (x : attr)
  : option (attr * store * gmap nat nat) :=
  match x with
  | Imm v => Some (x, σ, memo)
  | Ref r =>
      match memo !! r with
      | Some r' => Some (Ref r', σ, memo)
      | None =>
          match σ !! r with
          | Some (FieldObject f) =>
              let '(r', σ') := alloc σ (FieldObject f) in
              Some (Ref r', σ', <[r := r']> memo)
          | _ => None
          end
      end
  end.

(** The items of [__dict__], copied in turn. *)
Fixpoint deepcopy_items (σ : store) (memo : gmap nat nat)
  (items : list (string * attr))
  : option (list (string * attr) * store * gmap nat nat) :=
  match items with
  | [] => Some ([], σ, memo)
  | (name, x) :: rest =>
      match deepcopy_attr σ memo x with
      | Some (x', σ1, memo1) =>
          match deepcopy_items σ1 memo1 rest with
          | Some (rest', σ2, memo2) => Some ((name, x') :: rest', σ2, memo2)
          | None => None
          end
      | None => None
      end
  end.

(** [copy.deepcopy(x)] for an instance: a new, empty instance is created and
    recorded in the memo, then it receives the deep copy of [x.__dict__]. *)
Definition deepcopy (σ : store) (x : nat) : option (nat * store) :=
  match σ !! x with
  | Some (Instance d) =>
      let '(y, σ0) := alloc σ (Instance ∅) in
      match deepcopy_items σ0 {[x := y]} (map_to_list d) with
      | Some (items, σ1, _) => Some (y, <[y := Instance (list_to_map items)]> σ1)
      | None => None
      end
  | _ => None
  end.

(** *** BoundaryCondition.duplicate *)
Definition duplicate (σ : store) (self : nat) : option (nat * store) :=
  deepcopy σ self.

(** Reading an attribute of [x]: a reference is followed to the Field. *)
Definition read (σ : store) (x : nat) (name : string) : option Value :=
  match σ !! x with
  | Some (Instance d) =>
      match d !! name with
      | Some (Imm v) => Some v
      | Some (Ref r) =>
          match σ !! r with
          | Some (FieldObject f) => Some (PField f)
          | _ => None
          end
      | None => None
      end
  | _ => None
  end.

(** [x.T = t] and the other seven setters, in the store: a reference to a
    Field object is true and an instance of Field, so [tryGetField] returns
    it and the slot refers to that very object; any other value is coerced
    as above and the Field obtained is a new object. *)
Definition store_set (name : string) (σ : store) (x : nat) (t : attr)
  : result Exc store :=
  match σ !! x with
  | Some (Instance d) =>
      match t with
      | Ref r =>
          match σ !! r with
          | Some (FieldObject _) => Ok (<[x := Instance (<[name := Ref r]> d)]> σ)
          | _ => Raise (OtherError "not a Field object")
          end
      | Imm v =>
          match coerce v with
          | Ok (PField f) =>
              let '(r, σ1) := alloc σ (FieldObject f) in
              Ok (<[x := Instance (<[name := Ref r]> d)]> σ1)
          | Ok _ => Raise (OtherError "not a Field object")
          | Raise e => Raise e
          end
      end
  | _ => Raise (OtherError "not an instance")
  end.

(** A change of the state of the Field object at [r], in place. *)
Definition mutate (σ : store) (r : nat) (f : Field) : store :=
  <[r := FieldObject f]> σ.

(** The objects that [x] consists of: itself and what its attributes
    refer to. *)
Definition reaches (σ : store) (x r : nat) : Prop :=
  r = x \/ exists d name, σ !! x = Some (Instance d) /\ d !! name = Some (Ref r).

Definition is_FieldObject (o : option object) : Prop :=
  match o with
  | Some (FieldObject _) => True
  | _ => False
  end.

Definition wf_attr (σ : store) (a : attr) : Prop :=
  match a with
  | Imm _ => True
  | Ref r => is_FieldObject (σ !! r)
  end.

(** [a'] in [σ'] is a deep copy of [a] in [σ]: the same immutable value, or
    a reference to an object that [σ] does not have, in the same state. *)
Definition copy_of (σ σ' : store) (a a' : attr) : Prop :=
  match a with
  | Imm v => a' = Imm v
  | Ref r =>
      exists r' f, a' = Ref r' /\ (r' ∉ dom σ)
                   /\ σ !! r = Some (FieldObject f)
                   /\ σ' !! r' = Some (FieldObject f)
  end.

(** The memo maps the Field objects of [σ0] copied so far to their copies. *)
Definition memo_ok (σ0 σ : store) (memo : gmap nat nat) : Prop :=
  forall r r' f, memo !! r = Some r' -> σ0 !! r = Some (FieldObject f) ->
                 (r' ∉ dom σ0) /\ σ !! r' = Some (FieldObject f).

(** An instance whose references are to Field objects of the store, as the
    constructors build them. *)
Definition wf_instance (σ : store) (x : nat) : Prop :=
  exists d, σ !! x = Some (Instance d) /\ map_Forall (fun _ a => wf_attr σ a) d.

(** The attribute [a] of a stored object stands for the value [v]. *)
Definition stored (σ : store) (v : Value) (a : attr) : Prop :=
  match a with
  | Imm w => w = v
  | Ref r => exists f, v = PField f /\ σ !! r = Some (FieldObject f)
  end.

(** Placing a constructed object in the store: each Field instance it holds
    becomes an object. *)
Fixpoint store_items (σ : store) (items : list (string * Value))
  : list (string * attr) * store :=
  match items with
  | [] => ([], σ)
  | (name, PField f) :: rest =>
      let '(r, σ1) := alloc σ (FieldObject f) in
      let '(rest', σ2) := store_items σ1 rest in
      ((name, Ref r) :: rest', σ2)
  | (name, v) :: rest =>
      let '(rest', σ1) := store_items σ rest in
      ((name, Imm v) :: rest', σ1)
  end.

Definition store_object (σ : store) (self : gmap string Value) : nat * store :=
  let '(items, σ1) := store_items σ (map_to_list self) in
  alloc σ1 (Instance (list_to_map items)).

End Store.

(** ** The rest of the class

    The getters of the eight properties, the properties as a family, and the
    textual representations. *)

Section Accessors.
Context {Field ABLConditions : Type} `{!FieldsModule Field ABLConditions}.

Local Abbreviation Value := (PyValue Field).
Local Abbreviation Exc := (PyExc Field).
Local Abbreviation PyObject := (gmap string (PyValue Field)).

(** [self.name] for an attribute of the instance; a missing attribute is an
    [AttributeError]. *)
Definition getattr (self : PyObject) (name : string) : result Exc Value :=
  match self !! name with
  | Some v => Ok v
  | None => Raise (OtherError "AttributeError")
  end.

(** *** The property getters *)
Definition get_T (self : PyObject) : result Exc Value := getattr self "_T".
Definition get_U (self : PyObject) : result Exc Value := getattr self "_U".
Definition get_p (self : PyObject) : result Exc Value := getattr self "_p".
Definition get_k (self : PyObject) : result Exc Value := getattr self "_k".
Definition get_epsilon (self : PyObject) : result Exc Value :=
  getattr self "_epsilon".
Definition get_nut (self : PyObject) : result Exc Value := getattr self "_nut".
Definition get_alphat (self : PyObject) : result Exc Value :=
  getattr self "_alphat".
Definition get_p_rgh (self : PyObject) : result Exc Value :=
  getattr self "_p_rgh".

(** *** BoundaryCondition.isBoundaryCondition *)
Definition isBoundaryCondition (self : PyObject) : bool := true.

(** The eight properties of the class, with the attribute behind each, its
    setter, its getter and its argument of [__init__]. *)
Inductive property : Set :=
| prop_T | prop_U | prop_p | prop_k | prop_epsilon | prop_nut | prop_alphat
| prop_p_rgh.

Definition slot_of (x : property) : string :=
  match x with
  | prop_T => "_T" | prop_U => "_U" | prop_p => "_p" | prop_k => "_k"
  | prop_epsilon => "_epsilon" | prop_nut => "_nut"
  | prop_alphat => "_alphat" | prop_p_rgh => "_p_rgh"
  end.

Definition fset (x : property) : PyObject -> Value -> result Exc PyObject :=
  match x with
  | prop_T => set_T | prop_U => set_U | prop_p => set_p | prop_k => set_k
  | prop_epsilon => set_epsilon | prop_nut => set_nut
  | prop_alphat => set_alphat | prop_p_rgh => set_p_rgh
  end.

Definition fget (x : property) : PyObject -> result Exc Value :=
  match x with
  | prop_T => get_T | prop_U => get_U | prop_p => get_p | prop_k => get_k
  | prop_epsilon => get_epsilon | prop_nut => get_nut
  | prop_alphat => get_alphat | prop_p_rgh => get_p_rgh
  end.

Definition arg_of (x : property) (a : InitArgs) : Value :=
  match x with
  | prop_T => a_T a | prop_U => a_U a | prop_p => a_p a | prop_k => a_k a
  | prop_epsilon => a_epsilon a | prop_nut => a_nut a
  | prop_alphat => a_alphat a | prop_p_rgh => a_p_rgh a
  end.

(** [BoundaryCondition(bcType, refLevels)], no field given *)
Definition no_fields (bcType refLevels : Value) : InitArgs :=
  {| a_bcType := bcType; a_refLevels := refLevels; a_T := PNone; a_U := PNone;
     a_p := PNone; a_k := PNone; a_epsilon := PNone; a_nut := PNone;
     a_alphat := PNone; a_p_rgh := PNone |}.

(** [bc.T = T; bc.U = U; ...; bc.p_rgh = p_rgh], one assignment after the
    other *)
Definition assign_fields (self : PyObject) (a : InitArgs) : result Exc PyObject :=
  self ← set_T self (a_T a);
  self ← set_U self (a_U a);
  self ← set_p self (a_p a);
  self ← set_k self (a_k a);
  self ← set_epsilon self (a_epsilon a);
  self ← set_nut self (a_nut a);
  self ← set_alphat self (a_alphat a);
  set_p_rgh self (a_p_rgh a).

(** What a call leaves in a slot whatever its arguments are, where the
    constructor fixes it. *)
Definition fixed_slots (c : @Call Field ABLConditions) : list (string * Value) :=
  let ZG := new fields.ZeroGradient [] [] in
  let Em := new fields.Empty [] [] in
  let calc := new fields.Calculated [LStr "0"] [] in
  match c with
  | CallBoundaryCondition _ _ _ _ _ _ _ _ _ _ => []
  | CallBoundingBox _ =>
      [("_T", ZG); ("_U", ZG); ("_p", ZG); ("_k", ZG); ("_epsilon", ZG);
       ("_nut", ZG); ("_alphat", ZG); ("_p_rgh", ZG)]
  | CallEmpty _ =>
      [("_T", Em); ("_U", Em); ("_p", Em); ("_k", Em); ("_epsilon", Em);
       ("_nut", Em); ("_alphat", Em); ("_p_rgh", Em)]
  | CallIndoorWall _ _ _ _ _ _ _ _ _ => []
  | CallFixedInlet _ _ _ _ _ _ _ _ _ | CallFixedOutlet _ _ _ _ _ _ _ _ _ =>
      [("_nut", calc); ("_alphat", ZG); ("_p_rgh", ZG)]
  | CallWindTunnelWall _ _ _ _ _ _ _ | CallWindTunnelOutlet _ _ _ _ _ _ _ =>
      [("_alphat", ZG); ("_p_rgh", ZG)]
  | CallWindTunnelGround abl _ _ _ _ _ _ =>
      [("_nut", PField (Field_fromABLConditions fields.NutkAtmRoughWallFunction
                          abl [LStr "uniform 0"]));
       ("_alphat", ZG); ("_p_rgh", ZG)]
  | CallWindTunnelInlet abl _ _ _ _ =>
      [("_U", PField (Field_fromABLConditions
                        fields.AtmBoundaryLayerInletVelocity abl []));
       ("_k", PField (Field_fromABLConditions fields.AtmBoundaryLayerInletK abl []));
       ("_epsilon", PField (Field_fromABLConditions
                              fields.AtmBoundaryLayerInletEpsilon abl []));
       ("_alphat", ZG); ("_p_rgh", ZG)]
  | CallWindTunnelTopAndSides _ _ _ _ _ _ _ =>
      [("_nut", calc); ("_alphat", ZG); ("_p_rgh", ZG)]
  end.

(** The type each class gives its instances; the base takes it as an
    argument. *)
Definition kind_of (c : @Call Field ABLConditions) : Value :=
  match c with
  | CallBoundaryCondition bcType _ _ _ _ _ _ _ _ _ => bcType
  | CallBoundingBox _ | CallEmpty _ | CallIndoorWall _ _ _ _ _ _ _ _ _
  | CallWindTunnelWall _ _ _ _ _ _ _ | CallWindTunnelGround _ _ _ _ _ _ _ =>
      PStr "wall"
  | CallFixedInlet _ _ _ _ _ _ _ _ _ | CallFixedOutlet _ _ _ _ _ _ _ _ _
  | CallWindTunnelInlet _ _ _ _ _ | CallWindTunnelOutlet _ _ _ _ _ _ _
  | CallWindTunnelTopAndSides _ _ _ _ _ _ _ => PStr "patch"
  end.

End Accessors.

(** ** Sharing in a deep copy *)

Section Sharing.
Context {Field : Type}.

(** The copy [a'] of the attribute [a] is the one the memo records. *)
Definition follows_memo (memo : gmap nat nat) (a a' : @attr Field) : Prop :=
  match a with
  | Imm v => a' = Imm v
  | Ref r => exists r', a' = Ref r' /\ memo !! r = Some r'
  end.

(** A memo that keeps different objects apart, with copies in the store. *)
Definition memo_inj (σ : gmap nat (@object Field)) (memo : gmap nat nat) : Prop :=
  (forall r r', memo !! r = Some r' -> r' ∈ dom σ)
  /\ (forall r1 r2 r', memo !! r1 = Some r' -> memo !! r2 = Some r' -> r1 = r2).

End Sharing.

(** ** Textual representations *)

(** What the representations use of Python and of [fields], neither part of
    this file: [str(v)], as [format] inserts it for [{}], and the attribute
    [Uref] of a Field, which raises when the Field has none. *)
Class Formatting (Field : Type) := {
  py_str : PyValue Field -> string;
  Field_Uref : Field -> result (PyExc Field) (PyValue Field);
}.

Section Repr.
Context {Field ABLConditions : Type} `{!FieldsModule Field ABLConditions}
        `{!Formatting Field}.

Local Abbreviation Value := (PyValue Field).
Local Abbreviation Exc := (PyExc Field).
Local Abbreviation PyObject := (gmap string (PyValue Field)).

(** The line break of the format strings *)
Definition nl : string := String (ascii_of_nat 10) "".

(** *** BoundaryCondition.__repr__, with [cls] for
    [self.__class__.__name__] *)
Definition BoundaryCondition__repr__ (cls : string) (self : PyObject)
  : result Exc string :=
  type ← getattr self "type";
  refLevels ← getattr self "refLevels";
  Ok (cls +:+ ": " +:+ py_str type +:+ "; refLevels " +:+ py_str refLevels).

(** *** FixedInletBoundaryCondition.__repr__ *)
Definition FixedInletBoundaryCondition__repr__ (cls : string) (self : PyObject)
  : result Exc string :=
  type ← getattr self "type";
  U ← get_U self;
  refLevels ← getattr self "refLevels";
  Ok (cls +:+ ": " +:+ py_str type +:+ nl +:+ "velocity " +:+ py_str U +:+ nl
      +:+ "refLevels " +:+ py_str refLevels).

(** *** FixedOutletBoundaryCondition.__repr__ *)
Definition FixedOutletBoundaryCondition__repr__ (cls : string) (self : PyObject)
  : result Exc string :=
  type ← getattr self "type";
  p ← get_p self;
  refLevels ← getattr self "refLevels";
  Ok (cls +:+ ": " +:+ py_str type +:+ nl +:+ "pressure " +:+ py_str p +:+ nl
      +:+ "refLevels " +:+ py_str refLevels).

(** [field.Uref] for the value of a slot *)
Definition getattr_Uref (v : Value) : result Exc Value :=
  match v with
  | PField f => Field_Uref f
  | _ => Raise (OtherError "AttributeError")
  end.

(** *** WindTunnelInletBoundaryCondition.__repr__ *)
Definition WindTunnelInletBoundaryCondition__repr__ (cls : string)
  (self : PyObject) : result Exc string :=
  type ← getattr self "type";
  U ← get_U self;
  Uref ← getattr_Uref U;
  refLevels ← getattr self "refLevels";
  Ok (cls +:+ ": " +:+ py_str type +:+ nl +:+ "velocity " +:+ py_str Uref +:+ nl
      +:+ "refLevels " +:+ py_str refLevels).

(** *** WindTunnelOutletBoundaryCondition.__repr__ *)
Definition WindTunnelOutletBoundaryCondition__repr__ (cls : string)
  (self : PyObject) : result Exc string :=
  type ← getattr self "type";
  p ← get_p self;
  refLevels ← getattr self "refLevels";
  Ok (cls +:+ ": " +:+ py_str type +:+ nl +:+ "pressure " +:+ py_str p +:+ nl
      +:+ "refLevels " +:+ py_str refLevels).

(** *** WindTunnelTopAndSidesBoundaryCondition.__repr__ *)
Definition WindTunnelTopAndSidesBoundaryCondition__repr__ (cls : string)
  (self : PyObject) : result Exc string :=
  type ← getattr self "type";
  refLevels ← getattr self "refLevels";
  Ok (cls +:+ ": " +:+ py_str type +:+ nl +:+ "refLevels " +:+ py_str refLevels).

(** The class of the object a call constructs. *)
Definition class_name (c : @Call Field ABLConditions) : string :=
  match c with
  | CallBoundaryCondition _ _ _ _ _ _ _ _ _ _ => "BoundaryCondition"
  | CallBoundingBox _ => "BoundingBoxBoundaryCondition"
  | CallEmpty _ => "EmptyBoundaryCondition"
  | CallIndoorWall _ _ _ _ _ _ _ _ _ => "IndoorWallBoundaryCondition"
  | CallFixedInlet _ _ _ _ _ _ _ _ _ => "FixedInletBoundaryCondition"
  | CallFixedOutlet _ _ _ _ _ _ _ _ _ => "FixedOutletBoundaryCondition"
  | CallWindTunnelWall _ _ _ _ _ _ _ => "WindTunnelWallBoundaryCondition"
  | CallWindTunnelGround _ _ _ _ _ _ _ => "WindTunnelGroundBoundaryCondition"
  | CallWindTunnelInlet _ _ _ _ _ => "WindTunnelInletBoundaryCondition"
  | CallWindTunnelOutlet _ _ _ _ _ _ _ => "WindTunnelOutletBoundaryCondition"
  | CallWindTunnelTopAndSides _ _ _ _ _ _ _ =>
      "WindTunnelTopAndSidesBoundaryCondition"
  end.

(** [repr(obj)] for the object of a call: the [__repr__] of its class,
    which is that of the base where the class defines none. *)
Definition repr_of (c : @Call Field ABLConditions) (self : PyObject)
  : result Exc string :=
  match c with
  | CallFixedInlet _ _ _ _ _ _ _ _ _ =>
      FixedInletBoundaryCondition__repr__ (class_name c) self
  | CallFixedOutlet _ _ _ _ _ _ _ _ _ =>
      FixedOutletBoundaryCondition__repr__ (class_name c) self
  | CallWindTunnelInlet _ _ _ _ _ =>
      WindTunnelInletBoundaryCondition__repr__ (class_name c) self
  | CallWindTunnelOutlet _ _ _ _ _ _ _ =>
      WindTunnelOutletBoundaryCondition__repr__ (class_name c) self
  | CallWindTunnelTopAndSides _ _ _ _ _ _ _ =>
      WindTunnelTopAndSidesBoundaryCondition__repr__ (class_name c) self
  | _ => BoundaryCondition__repr__ (class_name c) self
  end.

(** *** BoundaryCondition.ToString *)
Definition ToString (c : @Call Field ABLConditions) (self : PyObject)
  : result Exc string :=
  repr_of c self.

(** The properties that the representation of a class reads. *)
Definition repr_reads (c : @Call Field ABLConditions) (x : property) : bool :=
  match c, x with
  | CallFixedInlet _ _ _ _ _ _ _ _ _, prop_U
  | CallWindTunnelInlet _ _ _ _ _, prop_U
  | CallFixedOutlet _ _ _ _ _ _ _ _ _, prop_p
  | CallWindTunnelOutlet _ _ _ _ _ _ _, prop_p => true
  | _, _ => false
  end.

End Repr.

(** ** Sample inputs in the reference model *)

Definition abl_5 : SpecModel.ABL :=
  {| SpecModel.Uref := "5"; SpecModel.Zref := "10"; SpecModel.z0 := "0.1" |}.
Definition abl_8 : SpecModel.ABL :=
  {| SpecModel.Uref := "8"; SpecModel.Zref := "10"; SpecModel.z0 := "0.1" |}.

(** [FixedOutletBoundaryCondition(["2", "3"], "fixedValue 300",
    FixedValue("(1 0 0)"), {"type": "totalPressure", "p0": "uniform 0"})] *)
Definition outlet_call : @Call SpecModel.SField SpecModel.ABL :=
  CallFixedOutlet (PList [PStr "2"; PStr "3"])
    (PStr "fixedValue 300")
    (PField (SpecModel.New fields.FixedValue [LStr "(1 0 0)"] []))
    (PDict [(PStr "type", PStr "totalPressure"); (PStr "p0", PStr "uniform 0")])
    PNone PNone PNone PNone PNone.

(** That outlet, placed in an empty store. *)
Definition outlet_store : nat * gmap nat (@object SpecModel.SField) :=
  match run outlet_call with
  | Ok s => store_object ∅ s
  | Raise _ => (0%nat, ∅)
  end.

(** The object that [outlet_call] constructs. *)
Definition outlet_object : gmap string (PyValue SpecModel.SField) :=
  match run outlet_call with
  | Ok s => s
  | Raise _ => ∅
  end.

(** A store in which the T and U slots of an instance share one Field
    object. *)
Definition shared_dict : gmap string (@attr SpecModel.SField) :=
  <["_T" := Ref 0]> (<["_U" := Ref 0]> (<["type" := Imm (PStr "patch")]> ∅)).

Definition shared_store : gmap nat (@object SpecModel.SField) :=
  <[1%nat := Instance shared_dict]>
    (<[0%nat := FieldObject (SpecModel.New fields.ZeroGradient [] [])]> ∅).

(** Modelled from the spec: the text of a value in a representation ("a
    human-readable summary of the record's class name, kind, and refinement
    levels"), a string standing for itself, and the reference velocity that
    a velocity derived from ABL conditions carries. *)
#[global] Instance spec_formatting : Formatting SpecModel.SField := {|
  py_str v :=
    match v with
    | PStr str => str
    | PField (SpecModel.FromString str) => str
    | _ => "<value>"
    end;
  Field_Uref f :=
    match f with
    | SpecModel.FromABL _ abl _ => Ok (PStr (SpecModel.Uref abl))
    | _ => Raise (OtherError "AttributeError")
    end;
|}.

(** * Properties *)

(** ** The exception monad and the sequential loop *)

Lemma returns_Ok {E A} (m : result E A) : returns m <-> exists a, m = Ok a.
Proof. destruct m; simpl; split; eauto; try tauto; intros [? ?]; discriminate. Qed.

Lemma raises_Raise {E A} (m : result E A) : raises m <-> exists e, m = Raise e.
Proof. destruct m; simpl; split; eauto; try tauto; intros [? ?]; discriminate. Qed.

Lemma raises_not_returns {E A} (m : result E A) : raises m -> ~ returns m.
Proof. destruct m; simpl; tauto. Qed.

Lemma bind_Ok {E A B} (m : result E A) (k : A -> result E B) b :
  m ≫= k = Ok b <-> exists a, m = Ok a /\ k a = Ok b.
Proof.
  destruct m; simpl; split; eauto.
  - intros (? & [= ->] & ?); done.
  - discriminate.
  - intros (? & ? & ?); discriminate.
Qed.

Lemma bind_raises {E A B} (m : result E A) (k : A -> result E B) :
  raises m -> raises (m ≫= k).
Proof. destruct m; simpl; tauto. Qed.

Lemma bind_returns {E A B} (m : result E A) (k : A -> result E B) :
  returns m -> (forall a, returns (k a)) -> returns (m ≫= k).
Proof. destruct m; simpl; [auto | tauto]. Qed.

Section Result.
Context {E A B : Type}.
Implicit Types (f : A -> result E B) (l : list A).

Lemma py_map_Ok f l ys :
  py_map f l = Ok ys <-> Forall2 (fun x y => f x = Ok y) l ys.
Proof.
  revert ys; induction l as [|x l IH]; intros ys; simpl.
  - split; [intros [= <-]; constructor | inversion 1; done].
  - split.
    + intros (y & Hy & (ys' & Hys & [= <-])%bind_Ok)%bind_Ok.
      constructor; [done | by apply IH].
    + inversion 1 as [|? y ? ys' Hy Hys]; subst.
      rewrite Hy; simpl. apply IH in Hys. rewrite Hys. done.
Qed.


Lemma py_map_returns f l :
  Forall (fun x => returns (f x)) l -> returns (py_map f l).
Proof.
  induction 1 as [|x l Hx _ IH]; simpl; [done |].
  destruct (f x); [simpl | done]. destruct (py_map f l); done.
Qed.

Lemma py_map_raises f l i x :
  l !! i = Some x -> raises (f x) -> raises (py_map f l).
Proof.
  revert i; induction l as [|y l IH]; intros [|i]; simpl; try done.
  - intros [= ->] Hx. by apply bind_raises.
  - intros Hi Hx. destruct (f y); [simpl | done].
    apply bind_raises. eauto.
Qed.

(** The exception of a loop is that of the first element that raises. *)
Lemma py_map_first_raise f l i x e :
  l !! i = Some x -> f x = Raise e ->
  (forall j y, (j < i)%nat -> l !! j = Some y -> returns (f y)) ->
  py_map f l = Raise e.
Proof.
  revert i; induction l as [|y l IH]; intros [|i]; simpl; try done.
  - intros [= ->] -> _. done.
  - intros Hi Hx Hbefore.
    assert (Hy : returns (f y)) by (apply (Hbefore 0%nat); [lia | done]).
    destruct (f y); [simpl | done].
    rewrite (IH i Hi Hx); [done |].
    intros j z Hj Hz. apply (Hbefore (S j)); [lia | done].
Qed.

End Result.

Section Properties.
Context {Field ABLConditions : Type} `{!FieldsModule Field ABLConditions}.

Local Abbreviation Value := (PyValue Field).
Local Abbreviation Exc := (PyExc Field).
Local Abbreviation PyObject := (gmap string (PyValue Field)).

Local Abbreviation Args := (@InitArgs Field).

Implicit Types (v t : Value) (self s : PyObject) (a : Args).

(** ** tryGetField *)

Lemma tryGetField_Field v :
  isinstance_Field v = true -> tryGetField v = Ok v.
Proof. unfold tryGetField. by intros ->. Qed.

Lemma tryGetField_instance v w :
  tryGetField v = Ok w -> exists f : Field, w = PField f.
Proof.
  unfold tryGetField. destruct (isinstance_Field v) eqn:Hv.
  - intros [= <-]. destruct v; try discriminate. eauto.
  - destruct (isinstance_dict v).
    + intros (f & _ & [= <-])%bind_Ok. eauto.
    + destruct (Field_fromString v); intros [= <-]. eauto.
Qed.

Lemma coerce_falsy v : truthy v = false -> coerce v = Ok ZeroGradient.
Proof. unfold coerce, py_or. by intros ->. Qed.

Lemma coerce_truthy v : truthy v = true -> coerce v = tryGetField v.
Proof. unfold coerce, py_or. by intros ->. Qed.

Lemma coerce_Field v :
  isinstance_Field v = true -> coerce v = Ok v.
Proof.
  intros Hv. rewrite coerce_truthy; [by apply tryGetField_Field |].
  by destruct v.
Qed.

Lemma coerce_accepted v : accepted v -> returns (coerce v).
Proof.
  destruct (truthy v) eqn:Ht; [| by rewrite coerce_falsy].
  rewrite coerce_truthy by done.
  intros [-> | [Hf | [[Hd Hr] | [Hd Hr]]]]; try done.
  - by rewrite tryGetField_Field.
  - unfold tryGetField. destruct (isinstance_Field v); [done |].
    rewrite Hd. by destruct (Field_fromDict v).
  - unfold tryGetField. destruct (isinstance_Field v); [done |].
    rewrite Hd. by destruct (Field_fromString v).
Qed.

Lemma coerce_uninterpretable v :
  truthy v = true -> uninterpretable v -> coerce v = Raise (InvalidFieldSpec v).
Proof.
  intros Ht (_ & Hf & Hd & Hr). rewrite coerce_truthy by done.
  unfold tryGetField. rewrite Hf, Hd. by destruct (Field_fromString v).
Qed.

(** ** __init__ as a loop over the eight slots *)

Lemma init_loop self a :
  BoundaryCondition__init__ self a =
    rl ← normalize_refLevels (a_refLevels a);
    fs ← py_map coerce (field_args a);
    Ok (assign (<["refLevels" := rl]> (<["type" := a_bcType a]> self))
               (zip field_slots fs)).
Proof.
  unfold BoundaryCondition__init__, field_args.
  destruct (normalize_refLevels (a_refLevels a)) as [rl|]; [simpl | done].
  unfold set_T, set_U, set_p, set_k, set_epsilon, set_nut, set_alphat, set_p_rgh.
  change (tryGetField (py_or ?x ZeroGradient)) with (coerce x).
  destruct (coerce (a_T a)); [simpl | done].
  destruct (coerce (a_U a)); [simpl | done].
  destruct (coerce (a_p a)); [simpl | done].
  destruct (coerce (a_k a)); [simpl | done].
  destruct (coerce (a_epsilon a)); [simpl | done].
  destruct (coerce (a_nut a)); [simpl | done].
  destruct (coerce (a_alphat a)); [simpl | done].
  destruct (coerce (a_p_rgh a)); [simpl | done].
  done.
Qed.

Lemma run_call_args (c : Call) :
  run c = BoundaryCondition__init__ ∅ (call_args c).
Proof. by destruct c. Qed.

Lemma init_returns self a :
  returns (normalize_refLevels (a_refLevels a)) ->
  Forall accepted (field_args a) ->
  returns (BoundaryCondition__init__ self a).
Proof.
  intros Hrl Hacc. rewrite init_loop.
  apply bind_returns; [done | intros rl].
  apply bind_returns; [| done].
  apply py_map_returns. eapply Forall_impl; [done |]. apply coerce_accepted.
Qed.

Lemma init_raises self a i v :
  field_args a !! i = Some v -> raises (coerce v) ->
  raises (BoundaryCondition__init__ self a).
Proof.
  intros Hi Hv. rewrite init_loop.
  destruct (normalize_refLevels (a_refLevels a)); [| done].
  apply (bind_raises (py_map coerce (field_args a))).
  by apply (py_map_raises _ _ i v).
Qed.

Lemma init_inv self a s :
  BoundaryCondition__init__ self a = Ok s ->
  exists rl (fT fU fp fk fe fn fa fr : Field),
    normalize_refLevels (a_refLevels a) = Ok rl
    /\ coerce (a_T a) = Ok (PField fT) /\ coerce (a_U a) = Ok (PField fU)
    /\ coerce (a_p a) = Ok (PField fp) /\ coerce (a_k a) = Ok (PField fk)
    /\ coerce (a_epsilon a) = Ok (PField fe) /\ coerce (a_nut a) = Ok (PField fn)
    /\ coerce (a_alphat a) = Ok (PField fa) /\ coerce (a_p_rgh a) = Ok (PField fr)
    /\ s = <["_p_rgh" := PField fr]> (<["_alphat" := PField fa]>
           (<["_nut" := PField fn]> (<["_epsilon" := PField fe]>
           (<["_k" := PField fk]> (<["_p" := PField fp]>
           (<["_U" := PField fU]> (<["_T" := PField fT]>
           (<["refLevels" := rl]> (<["type" := a_bcType a]> self))))))))).
Proof.
  rewrite init_loop.
  intros (rl & Hrl & (fs & Hfs%py_map_Ok & [= <-])%bind_Ok)%bind_Ok.
  unfold field_args in Hfs.
  repeat match goal with
  | H : Forall2 _ (_ :: _) _ |- _ =>
      let Hc := fresh "Hc" in
      apply Forall2_cons_inv_l in H as (? & ? & Hc & H & ->);
      destruct (tryGetField_instance _ _ Hc) as [? ->]
  | H : Forall2 _ [] _ |- _ => apply Forall2_nil_inv_l in H as ->
  end.
  eexists _, _, _, _, _, _, _, _, _. repeat (split; [eassumption |]). done.
Qed.

Lemma init_slots self a s :
  BoundaryCondition__init__ self a = Ok s -> Forall (holds_Field s) field_slots.
Proof.
  intros (rl & fT & fU & fp & fk & fe & fn & fa & fr & _ & _ & _ & _ & _ & _
          & _ & _ & _ & ->)%init_inv.
  unfold field_slots, holds_Field.
  repeat constructor; eexists; simplify_map_eq; done.
Qed.

Lemma accepted_instance v : isinstance_Field v = true -> accepted v.
Proof. unfold accepted; tauto. Qed.

Lemma accepted_py_or v d :
  accepted v -> isinstance_Field d = true -> accepted (py_or v d).
Proof.
  intros Hv Hd. unfold py_or. destruct (truthy v); [done |].
  by apply accepted_instance.
Qed.

Lemma accepted_omit_falsy v : accepted v -> accepted (omit_falsy v).
Proof.
  intros Hv. unfold omit_falsy. destruct (truthy v); [done |]. by left.
Qed.

Lemma call_args_accepted (c : Call) :
  Forall accepted (supplied_fields c) -> Forall accepted (field_args (call_args c)).
Proof.
  destruct c; simpl; intros Hs; unfold field_args; simpl;
    repeat match goal with
    | H : Forall _ (_ :: _) |- _ => apply Forall_cons in H as [? H]
    end;
    repeat first
      [ apply Forall_nil_2
      | apply Forall_cons; split
      | assumption
      | apply accepted_py_or; [assumption | reflexivity]
      | apply accepted_instance; reflexivity
      | apply (accepted_omit_falsy _); assumption
      | by left ].
Qed.

Lemma call_refLevels_returns (c : Call) :
  returns (normalize_refLevels (supplied_refLevels c)) ->
  returns (normalize_refLevels (a_refLevels (call_args c))).
Proof. destruct c; done. Qed.

(** ** The claims on coercion and construction *)


(** C3.  Whenever a constructor (the base or a specialization) returns, each
    of the eight slots of the object holds an instance of Field; and it does
    return when every supplied field argument is omitted, a Field instance,
    a mapping that [Field.fromDict] takes or a value that [Field.fromString]
    takes (and the refinement levels can be normalized). *)
Theorem C3_slots_hold_Field_instances (c : Call) :
  (forall s, run c = Ok s -> Forall (holds_Field s) field_slots)
  /\ (Forall accepted (supplied_fields c) ->
      returns (normalize_refLevels (supplied_refLevels c)) ->
      exists s, run c = Ok s /\ Forall (holds_Field s) field_slots).
Proof.
  rewrite run_call_args. split.
  - intros s. apply init_slots.
  - intros Hf Hrl.
    destruct (BoundaryCondition__init__ ∅ (call_args c)) as [s|e] eqn:Hrun.
    + exists s. split; [done |]. by apply init_slots in Hrun.
    + exfalso.
      assert (Hret : returns (BoundaryCondition__init__ ∅ (call_args c))).
      { apply init_returns;
          [by apply call_refLevels_returns | by apply call_args_accepted]. }
      by rewrite Hrun in Hret.
Qed.

(** ** Refinement levels *)

Lemma normalize_falsy v :
  truthy v = false -> normalize_refLevels v = Ok (PTuple [PInt 1; PInt 1]).
Proof. unfold normalize_refLevels. by intros ->. Qed.

Lemma normalize_truthy v :
  truthy v = true ->
  normalize_refLevels v =
    vs ← py_iter v; ns ← py_map py_int vs; Ok (PTuple (PInt <$> ns)).
Proof. unfold normalize_refLevels. by intros ->. Qed.

Lemma normalize_tuple_of_ints v out :
  normalize_refLevels v = Ok out -> exists ns : list Z, out = PTuple (PInt <$> ns).
Proof.
  destruct (truthy v) eqn:Ht.
  - rewrite normalize_truthy by done.
    intros (vs & _ & (ns & _ & [= <-])%bind_Ok)%bind_Ok. eauto.
  - rewrite normalize_falsy by done. intros [= <-]. by exists [1; 1].
Qed.

(** C4, as the code has it.  Levels that are omitted (or false) give
    [(1, 1)]; otherwise the result is the tuple of [int(v)] for the elements
    [v] of the input, in order, so that [["2", "3"]] gives [(2, 3)]: a tuple
    of ints with as many elements as the input has, whatever their number;
    an element that [int] does not take, or an input that cannot be iterated,
    makes the constructor raise.  The attribute [refLevels] of a constructed
    object is that tuple. *)
Theorem C4_refLevels_tuple_of_ints (refLevels : Value) :
  (truthy refLevels = false ->
     normalize_refLevels refLevels = Ok (PTuple [PInt 1; PInt 1]))
  /\ normalize_refLevels (Field:=Field) (PList [PStr "2"; PStr "3"])
       = Ok (PTuple [PInt 2; PInt 3])
  /\ (truthy refLevels = true ->
      forall vs, py_iter refLevels = Ok vs ->
        (forall ns, Forall2 (fun v n => py_int v = Ok n) vs ns ->
           normalize_refLevels refLevels = Ok (PTuple (PInt <$> ns))
           /\ length ns = length vs)
        /\ (forall i v, vs !! i = Some v -> raises (py_int v) ->
             raises (normalize_refLevels refLevels)))
  /\ (truthy refLevels = true -> raises (py_iter refLevels) ->
      raises (normalize_refLevels refLevels))
  /\ (forall out, normalize_refLevels refLevels = Ok out ->
        exists ns : list Z, out = PTuple (PInt <$> ns))
  /\ (forall self a, a_refLevels a = refLevels ->
        (forall s, BoundaryCondition__init__ self a = Ok s ->
           exists ns : list Z,
             normalize_refLevels refLevels = Ok (PTuple (PInt <$> ns))
             /\ s !! "refLevels" = Some (PTuple (PInt <$> ns)))
        /\ (raises (normalize_refLevels refLevels) ->
            raises (BoundaryCondition__init__ self a))).
Proof.
  split; [apply normalize_falsy |]. split; [reflexivity |].
  split; [| split; [| split; [apply normalize_tuple_of_ints |]]].
  - intros Ht vs Hvs. rewrite normalize_truthy, Hvs by done. split.
    + intros ns Hns. pose proof (Forall2_length _ _ _ Hns) as Hlen.
      apply py_map_Ok in Hns.
      change (Ok vs ≫= ?k) with (k vs). cbv beta. rewrite Hns. done.
    + intros i v Hi Hv. apply (bind_raises (py_map py_int vs)).
      by apply (py_map_raises _ _ i v).
  - intros Ht Hr. rewrite normalize_truthy by done. by apply bind_raises.
  - intros self a <-. split.
    + intros s (rl & fT & fU & fp & fk & fe & fn & fa & fr & Hrl & _ & _ & _
                & _ & _ & _ & _ & _ & ->)%init_inv.
      destruct (normalize_tuple_of_ints _ _ Hrl) as [ns ->].
      exists ns. split; [done |]. by simplify_map_eq.
    + intros Hr. unfold BoundaryCondition__init__. by apply bind_raises.
Qed.

(** ** Inputs that cannot be coerced *)

(** C5, as the code has it.  A true input that is neither a Field instance
    nor a mapping and that [Field.fromString] rejects makes its setter raise
    [ValueError] with the input in the message; a constructor that hands such
    an input to a slot raises, so that its caller receives no object; and the
    exception raised is that one when the levels and the slots assigned
    before it were accepted. *)
Theorem C5_uninterpretable_input_is_fatal (c : Call) (i : nat) v :
  field_args (call_args c) !! i = Some v ->
  truthy v = true -> uninterpretable v ->
  coerce v = Raise (InvalidFieldSpec v)
  /\ raises (run c)
  /\ (forall s, run c <> Ok s)
  /\ (returns (normalize_refLevels (a_refLevels (call_args c))) ->
      (forall j w, (j < i)%nat -> field_args (call_args c) !! j = Some w ->
                   accepted w) ->
      run c = Raise (InvalidFieldSpec v)).
Proof.
  intros Hi Ht Hv. pose proof (coerce_uninterpretable v Ht Hv) as Hc.
  assert (Hr : raises (run c)).
  { rewrite run_call_args. apply (init_raises _ _ i v); [done |]. by rewrite Hc. }
  split; [done |]. split; [done |]. split.
  - intros s Hs. by rewrite Hs in Hr.
  - intros Hrl Hbefore. rewrite run_call_args, init_loop.
    apply returns_Ok in Hrl as [rl ->].
    change (Ok rl ≫= ?k) with (k rl). cbv beta.
    rewrite (py_map_first_raise coerce _ i v _ Hi Hc); [done |].
    intros j w Hj Hw. apply coerce_accepted. eauto.
Qed.

(** ** Falsy inputs *)

Lemma coerce_omit_falsy v : coerce (omit_falsy v) = coerce v.
Proof.
  unfold omit_falsy. destruct (truthy v) eqn:Ht; [done |].
  by rewrite (coerce_falsy v Ht).
Qed.

(** C10.  Every setter treats an input that is false (0, the empty string,
    an empty mapping, ...) as it treats [None]: the slot receives
    [ZeroGradient()] and the input never reaches [tryGetField]; and so does
    the constructor. *)
Theorem C10_falsy_input_is_omitted self v :
  truthy v = false ->
  (set_T self v = set_T self PNone
   /\ set_T self v = Ok (<["_T" := ZeroGradient]> self))
  /\ (set_U self v = set_U self PNone
      /\ set_U self v = Ok (<["_U" := ZeroGradient]> self))
  /\ (set_p self v = set_p self PNone
      /\ set_p self v = Ok (<["_p" := ZeroGradient]> self))
  /\ (set_k self v = set_k self PNone
      /\ set_k self v = Ok (<["_k" := ZeroGradient]> self))
  /\ (set_epsilon self v = set_epsilon self PNone
      /\ set_epsilon self v = Ok (<["_epsilon" := ZeroGradient]> self))
  /\ (set_nut self v = set_nut self PNone
      /\ set_nut self v = Ok (<["_nut" := ZeroGradient]> self))
  /\ (set_alphat self v = set_alphat self PNone
      /\ set_alphat self v = Ok (<["_alphat" := ZeroGradient]> self))
  /\ (set_p_rgh self v = set_p_rgh self PNone
      /\ set_p_rgh self v = Ok (<["_p_rgh" := ZeroGradient]> self))
  /\ (forall a, BoundaryCondition__init__ self a
               = BoundaryCondition__init__ self (omit_falsy_fields a)).
Proof.
  intros Ht.
  unfold set_T, set_U, set_p, set_k, set_epsilon, set_nut, set_alphat, set_p_rgh.
  change (tryGetField (py_or ?x ZeroGradient)) with (coerce x).
  rewrite (coerce_falsy v Ht), (coerce_falsy PNone eq_refl).
  repeat (split; [done |]).
  intros a. rewrite !init_loop. unfold field_args, omit_falsy_fields; simpl.
  by rewrite !coerce_omit_falsy.
Qed.

(** ** Defaults of the specializations *)

(** C6.  [IndoorWallBoundaryCondition()] is of type ['wall'], with
    [FixedValue('(0 0 0)')] for U, [ZeroGradient()] for p,
    [KqRWallFunction('0.1')] for k, [EpsilonWallFunction(0.01)] for epsilon
    and [NutkWallFunction(0.01)] for nut. *)
Theorem C6_IndoorWall_defaults :
  exists s,
    IndoorWallBoundaryCondition PNone PNone PNone PNone PNone PNone PNone PNone PNone
      = Ok s
    /\ s !! "type" = Some (PStr "wall")
    /\ s !! "_U" = Some (new fields.FixedValue [LStr "(0 0 0)"] [])
    /\ s !! "_p" = Some (new fields.ZeroGradient [] [])
    /\ s !! "_k" = Some (new fields.KqRWallFunction [LStr "0.1"] [])
    /\ s !! "_epsilon" = Some (new fields.EpsilonWallFunction [LFloat "0.01"] [])
    /\ s !! "_nut" = Some (new fields.NutkWallFunction [LFloat "0.01"] []).
Proof. eexists. split; [reflexivity |]. repeat split; reflexivity. Qed.

(** C7, as the code has it.  [FixedInletBoundaryCondition] substitutes no
    default of its own for T: it hands [None] to the base when T is omitted
    (or false) and T itself otherwise.  The setter of the base then assigns
    its default, so that the slot of the constructed object holds
    [ZeroGradient()]; the other slots hold the defaults of the inlet. *)
Theorem C7_FixedInlet_temperature :
  (forall refLevels T U p k epsilon nut alphat p_rgh,
     a_T (FixedInletBoundaryCondition_args refLevels T U p k epsilon nut alphat p_rgh)
       = omit_falsy T)
  /\ exists s,
      FixedInletBoundaryCondition PNone PNone PNone PNone PNone PNone PNone PNone PNone
        = Ok s
      /\ s !! "type" = Some (PStr "patch")
      /\ s !! "_T" = Some (new fields.ZeroGradient [] [])
      /\ s !! "_U" = Some (new fields.FixedValue [LStr "(0 0 0)"] [])
      /\ s !! "_p" = Some (new fields.ZeroGradient [] [])
      /\ s !! "_k" = Some (new fields.FixedValue [LStr "0.1"] [])
      /\ s !! "_epsilon" = Some (new fields.FixedValue [LStr "0.01"] [])
      /\ s !! "_nut" = Some (new fields.Calculated [LStr "0"] [])
      /\ s !! "_alphat" = Some (new fields.ZeroGradient [] [])
      /\ s !! "_p_rgh" = Some (new fields.ZeroGradient [] []).
Proof.
  split; [reflexivity |].
  eexists. split; [reflexivity |]. repeat split; reflexivity.
Qed.

(** The wind-tunnel inlet takes no U, k or epsilon: these three slots hold
    the fields derived from the ABL conditions, whatever the other
    arguments are. *)
Lemma WindTunnelInlet_slots (abl : ABLConditions) (refLevels T p nut : Value) s :
  WindTunnelInletBoundaryCondition abl refLevels T p nut = Ok s ->
  s !! "_U" = Some (PField (Field_fromABLConditions
                      fields.AtmBoundaryLayerInletVelocity abl []))
  /\ s !! "_k" = Some (PField (Field_fromABLConditions
                         fields.AtmBoundaryLayerInletK abl []))
  /\ s !! "_epsilon" = Some (PField (Field_fromABLConditions
                               fields.AtmBoundaryLayerInletEpsilon abl [])).
Proof.
  unfold WindTunnelInletBoundaryCondition.
  intros (rl & fT & fU & fp & fk & fe & fn & fa & fr & _ & _ & HU & _ & Hk & He
          & _ & _ & _ & ->)%init_inv.
  simpl in HU, Hk, He.
  rewrite coerce_Field in HU, Hk, He by done.
  injection HU as <-. injection Hk as <-. injection He as <-.
  by simplify_map_eq.
Qed.

(** ** Forwarding of the arguments *)

Lemma forwards_py_or (default supplied : Value) :
  forwards default supplied (py_or supplied default).
Proof. unfold forwards, py_or. split; intros ->; reflexivity. Qed.

Lemma forwards_omit_falsy (supplied : Value) :
  forwards PNone supplied (omit_falsy supplied).
Proof. unfold forwards, omit_falsy. split; intros ->; reflexivity. Qed.

(** C1, as the code has it.  There are ten specializations.  Two of them
    (bounding box, empty) take no field argument.  In the other eight, each
    field argument that the constructor consults reaches the base initialiser
    as it was supplied when it is true, and is replaced by the default of the
    specialization when it is omitted or false; the levels reach it as
    supplied. *)
Theorem C1_supplied_arguments_forwarded
  (ablConditions : ABLConditions)
  (refLevels T U p k epsilon nut alphat p_rgh : Value) :
  (* IndoorWallBoundaryCondition *)
  (let a := IndoorWallBoundaryCondition_args
              refLevels T U p k epsilon nut alphat p_rgh in
   a_refLevels a = refLevels
   /\ forwards (new fields.ZeroGradient [] []) T (a_T a)
   /\ forwards (new fields.FixedValue [LStr "(0 0 0)"] []) U (a_U a)
   /\ forwards (new fields.ZeroGradient [] []) p (a_p a)
   /\ forwards (new fields.KqRWallFunction [LStr "0.1"] []) k (a_k a)
   /\ forwards (new fields.EpsilonWallFunction [LFloat "0.01"] []) epsilon
        (a_epsilon a)
   /\ forwards (new fields.NutkWallFunction [LFloat "0.01"] []) nut (a_nut a)
   /\ forwards (new fields.AlphatJayatillekeWallFunction []
        [("value", LStr "0"); ("isUniform", LBool true); ("Prt", LStr "0.85")])
        alphat (a_alphat a)
   /\ forwards (new fields.FixedFluxPressure []
        [("value", LStr "0"); ("isUniform", LBool true); ("rho", LStr "rhok")])
        p_rgh (a_p_rgh a))
  (* FixedInletBoundaryCondition *)
  /\ (let a := FixedInletBoundaryCondition_args
                 refLevels T U p k epsilon nut alphat p_rgh in
      a_refLevels a = refLevels
      /\ forwards PNone T (a_T a)
      /\ forwards (new fields.FixedValue [LStr "(0 0 0)"] []) U (a_U a)
      /\ forwards (new fields.ZeroGradient [] []) p (a_p a)
      /\ forwards (new fields.FixedValue [LStr "0.1"] []) k (a_k a)
      /\ forwards (new fields.FixedValue [LStr "0.01"] []) epsilon (a_epsilon a))
  (* FixedOutletBoundaryCondition *)
  /\ (let a := FixedOutletBoundaryCondition_args
                 refLevels T U p k epsilon nut alphat p_rgh in
      a_refLevels a = refLevels
      /\ forwards (new fields.ZeroGradient [] []) T (a_T a)
      /\ forwards (new fields.ZeroGradient [] []) U (a_U a)
      /\ forwards (new fields.FixedValue [LStr "0"] []) p (a_p a)
      /\ forwards (new fields.ZeroGradient [] []) k (a_k a)
      /\ forwards (new fields.ZeroGradient [] []) epsilon (a_epsilon a))
  (* WindTunnelWallBoundaryCondition *)
  /\ (let a := WindTunnelWallBoundaryCondition_args refLevels T U p k epsilon nut in
      a_refLevels a = refLevels
      /\ forwards (new fields.ZeroGradient [] []) T (a_T a)
      /\ forwards (new fields.FixedValue [LStr "(0 0 0)"] []) U (a_U a)
      /\ forwards (new fields.ZeroGradient [] []) p (a_p a)
      /\ forwards (new fields.KqRWallFunction [LStr "$internalField"]
           [("isUnifrom", LBool false)]) k (a_k a)
      /\ forwards (new fields.EpsilonWallFunction [LStr "$internalField"]
           [("isUnifrom", LBool false)]) epsilon (a_epsilon a)
      /\ forwards (new fields.NutkWallFunction [LStr "0.0"] []) nut (a_nut a))
  (* WindTunnelGroundBoundaryCondition *)
  /\ (let a := WindTunnelGroundBoundaryCondition_args ablConditions
                 refLevels T U p k epsilon in
      a_refLevels a = refLevels
      /\ forwards (new fields.ZeroGradient [] []) T (a_T a)
      /\ forwards (new fields.FixedValue [LStr "(0 0 0)"] []) U (a_U a)
      /\ forwards (new fields.ZeroGradient [] []) p (a_p a)
      /\ forwards (new fields.ZeroGradient [] []) k (a_k a)
      /\ forwards (new fields.ZeroGradient [] []) epsilon (a_epsilon a))
  (* WindTunnelInletBoundaryCondition *)
  /\ (let a := WindTunnelInletBoundaryCondition_args ablConditions
                 refLevels T p nut in
      a_refLevels a = refLevels
      /\ forwards (new fields.ZeroGradient [] []) T (a_T a)
      /\ forwards (new fields.ZeroGradient [] []) p (a_p a)
      /\ forwards (new fields.Calculated [LStr "0"] []) nut (a_nut a))
  (* WindTunnelOutletBoundaryCondition *)
  /\ (let a := WindTunnelOutletBoundaryCondition_args refLevels T U p k epsilon nut in
      a_refLevels a = refLevels
      /\ forwards (new fields.ZeroGradient [] []) T (a_T a)
      /\ forwards (new fields.InletOutlet
           [LStr "uniform (0 0 0)"; LStr "$internalField"] []) U (a_U a)
      /\ forwards (new fields.FixedValue [LStr "$pressure"] []) p (a_p a)
      /\ forwards (new fields.InletOutlet
           [LStr "uniform $turbulentKE"; LStr "$internalField"] []) k (a_k a)
      /\ forwards (new fields.InletOutlet
           [LStr "uniform $turbulentEpsilon"; LStr "$internalField"] [])
           epsilon (a_epsilon a)
      /\ forwards (new fields.Calculated [LStr "0"] []) nut (a_nut a))
  (* WindTunnelTopAndSidesBoundaryCondition *)
  /\ (let a := WindTunnelTopAndSidesBoundaryCondition_args
                 refLevels T U p k epsilon nut in
      a_refLevels a = refLevels
      /\ forwards (new fields.ZeroGradient [] []) T (a_T a)
      /\ forwards (new fields.Slip [] []) U (a_U a)
      /\ forwards (new fields.Slip [] []) p (a_p a)
      /\ forwards (new fields.Slip [] []) k (a_k a)
      /\ forwards (new fields.Slip [] []) epsilon (a_epsilon a)).
Proof.
  cbv zeta.
  repeat match goal with
  | |- _ /\ _ => split
  | |- forwards PNone _ _ => apply forwards_omit_falsy
  | |- forwards _ _ _ => apply forwards_py_or
  | |- _ = _ => reflexivity
  end.
Qed.

(** The arguments that a constructor takes and does not consult: the base
    initialiser receives the same value whatever was supplied. *)
Lemma unconsulted_arguments
  (refLevels T U p k epsilon nut alphat p_rgh : Value) :
  (let a := FixedInletBoundaryCondition_args
              refLevels T U p k epsilon nut alphat p_rgh in
   a_nut a = new fields.Calculated [LStr "0"] []
   /\ a_alphat a = new fields.ZeroGradient [] []
   /\ a_p_rgh a = new fields.ZeroGradient [] [])
  /\ (let a := FixedOutletBoundaryCondition_args
                 refLevels T U p k epsilon nut alphat p_rgh in
      a_nut a = new fields.Calculated [LStr "0"] []
      /\ a_alphat a = new fields.ZeroGradient [] []
      /\ a_p_rgh a = new fields.ZeroGradient [] [])
  /\ a_nut (WindTunnelTopAndSidesBoundaryCondition_args
              refLevels T U p k epsilon nut)
     = new fields.Calculated [LStr "0"] []
  /\ a_refLevels (BoundingBoxBoundaryCondition_args refLevels) = PNone
  /\ a_refLevels (EmptyBoundaryCondition_args refLevels) = PNone.
Proof. repeat split. Qed.

End Properties.

(** ** duplicate *)

Section StoreProperties.
Context {Field ABLConditions : Type} `{!FieldsModule Field ABLConditions}.

Local Abbreviation Value := (PyValue Field).
Local Abbreviation store := (gmap nat (@object Field)).
Local Abbreviation attrs := (gmap string (@attr Field)).

Implicit Types (σ : store) (memo : gmap nat nat) (a : @attr Field) (d : attrs).

Lemma is_FieldObject_Some σ r :
  is_FieldObject (σ !! r) <-> exists f, σ !! r = Some (FieldObject f).
Proof.
  unfold is_FieldObject. destruct (σ !! r) as [[f|d]|]; split; eauto;
    try tauto; intros [? ?]; discriminate.
Qed.

Lemma alloc_spec σ o r σ' :
  alloc σ o = (r, σ') -> (r ∉ dom σ) /\ σ' = <[r := o]> σ /\ σ ⊆ σ'.
Proof.
  intros [= <- <-]. pose proof (is_fresh (dom σ)) as Hfresh.
  split; [done |]. split; [done |].
  by apply insert_subseteq, not_elem_of_dom.
Qed.

Lemma copy_of_mono σ0 σ1 σ2 a a' :
  σ1 ⊆ σ2 -> copy_of σ0 σ1 a a' -> copy_of σ0 σ2 a a'.
Proof.
  intros Hsub. destruct a as [v|r]; simpl; [done |].
  intros (r' & f & -> & Hr' & Hr & Hcopy).
  exists r', f. repeat split; try done. by eapply lookup_weaken.
Qed.

Lemma deepcopy_attr_spec σ0 σ memo a :
  σ0 ⊆ σ -> memo_ok σ0 σ memo -> wf_attr σ0 a ->
  exists a' σ1 memo1,
    deepcopy_attr σ memo a = Some (a', σ1, memo1)
    /\ σ ⊆ σ1 /\ memo_ok σ0 σ1 memo1 /\ copy_of σ0 σ1 a a'.
Proof.
  intros Hsub Hmemo Hwf. destruct a as [v|r]; cbn [deepcopy_attr wf_attr] in *.
  { by exists (Imm v), σ, memo. }
  apply is_FieldObject_Some in Hwf as [f Hf].
  destruct (memo !! r) as [r'|] eqn:Hr.
  - destruct (Hmemo _ _ _ Hr Hf) as [Hfresh Hcopy].
    exists (Ref r'), σ, memo. split; [done |]. split; [done |].
    split; [done |]. by exists r', f.
  - rewrite (lookup_weaken _ _ _ _ Hf Hsub).
    destruct (alloc σ (FieldObject f)) as [r' σ1] eqn:Halloc.
    apply alloc_spec in Halloc as (Hfresh & -> & Hsub1).
    assert (Hfresh0 : r' ∉ dom σ0).
    { intros Hin. apply Hfresh. by eapply (subseteq_dom σ0 σ). }
    eexists _, _, _. split; [reflexivity |]. split; [exact Hsub1 |]. split.
    + intros r2 r2' f2 Hr2 Hf2. destruct (decide (r = r2)) as [<- | Hne].
      * rewrite lookup_insert_eq in Hr2. injection Hr2 as <-.
        rewrite Hf in Hf2. injection Hf2 as <-.
        by rewrite lookup_insert_eq.
      * rewrite lookup_insert_ne in Hr2 by done.
        destruct (Hmemo _ _ _ Hr2 Hf2) as [? Hcopy]. split; [done |].
        by eapply lookup_weaken.
    + exists r', f. by rewrite lookup_insert_eq.
Qed.

Lemma deepcopy_items_spec σ0 (items : list (string * @attr Field)) σ memo :
  σ0 ⊆ σ -> memo_ok σ0 σ memo -> Forall (fun i => wf_attr σ0 i.2) items ->
  exists items' σ1 memo1,
    deepcopy_items σ memo items = Some (items', σ1, memo1)
    /\ σ ⊆ σ1
    /\ Forall2 (fun i i' => i.1 = i'.1 /\ copy_of σ0 σ1 i.2 i'.2) items items'.
Proof.
  revert σ memo. induction items as [|[name a] items IH]; intros σ memo Hsub Hmemo Hwf.
  { exists [], σ, memo. by repeat split. }
  apply Forall_cons in Hwf as [Ha Hitems]. simpl in Ha.
  destruct (deepcopy_attr_spec σ0 σ memo a Hsub Hmemo Ha)
    as (a' & σ1 & memo1 & Heq1 & Hsub1 & Hmemo1 & Hcopy1).
  destruct (IH σ1 memo1) as (items' & σ2 & memo2 & Heq2 & Hsub2 & Hcopies);
    [by etrans | done | done |].
  exists ((name, a') :: items'), σ2, memo2. simpl. rewrite Heq1, Heq2.
  split; [done |]. split; [by etrans |].
  constructor; [| done]. split; [done |]. by eapply copy_of_mono.
Qed.

Lemma list_to_map_related {A B} (R : A -> B -> Prop)
  (l : list (string * A)) (l' : list (string * B)) :
  Forall2 (fun i i' => i.1 = i'.1 /\ R i.2 i'.2) l l' ->
  forall name, option_Forall2 R ((list_to_map l : gmap string A) !! name)
                                ((list_to_map l' : gmap string B) !! name).
Proof.
  induction 1 as [|[n x] [n' x'] l l' [Hn Hx] _ IH]; intros name; simpl in *.
  { rewrite !lookup_empty. constructor. }
  subst n'. destruct (decide (n = name)) as [-> | Hne].
  - rewrite !lookup_insert_eq. by constructor.
  - rewrite !lookup_insert_ne by done. apply IH.
Qed.

(** [duplicate] returns, and what it returns is a deep copy. *)
Lemma duplicate_spec σ x :
  wf_instance σ x ->
  exists y σ' d d',
    duplicate σ x = Some (y, σ')
    /\ (y ∉ dom σ) /\ σ ⊆ σ'
    /\ σ !! x = Some (Instance d) /\ σ' !! y = Some (Instance d')
    /\ forall name, option_Forall2 (copy_of σ σ') (d !! name) (d' !! name).
Proof.
  intros (d & Hx & Hwf). unfold duplicate, deepcopy. rewrite Hx.
  destruct (alloc σ (Instance ∅)) as [y σ0] eqn:Halloc.
  apply alloc_spec in Halloc as (Hy & -> & Hsub0).
  destruct (deepcopy_items_spec σ (map_to_list d) (<[y := Instance ∅]> σ) {[x := y]})
    as (items' & σ1 & memo1 & -> & Hsub1 & Hcopies).
  { done. }
  { intros r r' f [<- <-]%lookup_singleton_Some Hf. congruence. }
  { apply map_Forall_to_list in Hwf. eapply Forall_impl; [exact Hwf |].
    by intros [? ?]. }
  assert (Hy1 : σ1 !! y = Some (Instance ∅)).
  { eapply lookup_weaken; [| exact Hsub1]. by rewrite lookup_insert_eq. }
  exists y, (<[y := Instance (list_to_map items')]> σ1), d, (list_to_map items').
  split; [done |]. split; [done |]. split.
  { apply insert_subseteq_r; [by apply not_elem_of_dom | by etrans]. }
  split; [done |]. split; [by rewrite lookup_insert_eq |].
  intros name.
  pose proof (list_to_map_related _ _ _ Hcopies name) as Hrel.
  rewrite list_to_map_to_list in Hrel.
  destruct Hrel as [a a' Hrel|]; constructor.
  destruct a as [v|r]; simpl in *; [done |].
  destruct Hrel as (r' & f & -> & Hr' & Hr & Hcopy).
  exists r', f. repeat split; try done.
  rewrite lookup_insert_ne; [done |]. intros <-. congruence.
Qed.

(** *** Constructed objects in the store *)

Lemma stored_mono σ1 σ2 (v : Value) a :
  σ1 ⊆ σ2 -> stored σ1 v a -> stored σ2 v a.
Proof.
  intros Hsub. destruct a as [w|r]; simpl; [done |].
  intros (f & -> & Hf). exists f. split; [done |]. by eapply lookup_weaken.
Qed.

Lemma store_items_spec (items : list (string * Value)) σ :
  exists items' σ1,
    store_items σ items = (items', σ1)
    /\ σ ⊆ σ1
    /\ Forall2 (fun i i' => i.1 = i'.1 /\ stored σ1 i.2 i'.2) items items'.
Proof.
  revert σ. induction items as [|[name v] items IH]; intros σ.
  { exists [], σ. by repeat split. }
  assert (Hcases :
    (exists f, v = PField f)
    \/ store_items σ ((name, v) :: items)
       = (let '(rest', σ1) := store_items σ items in ((name, Imm v) :: rest', σ1))).
  { destruct v; eauto. }
  destruct Hcases as [[f ->] | ->].
  - cbn [store_items].
    destruct (alloc σ (FieldObject f)) as [r σ0] eqn:Halloc.
    apply alloc_spec in Halloc as (Hr & -> & Hsub0).
    destruct (IH (<[r := FieldObject f]> σ)) as (items' & σ1 & -> & Hsub1 & Hrel).
    eexists _, _. split; [reflexivity |]. split; [by etrans |].
    constructor; [| done]. split; [done |]. simpl. exists f. split; [done |].
    eapply lookup_weaken; [| exact Hsub1]. by rewrite lookup_insert_eq.
  - destruct (IH σ) as (items' & σ1 & -> & Hsub1 & Hrel).
    eexists _, _. split; [reflexivity |]. split; [done |].
    constructor; [| done]. by split.
Qed.

(** A constructed object, once in the store, is an instance as [duplicate]
    expects it, and reads as the object does. *)
Lemma store_object_spec σ (self : gmap string Value) :
  exists x σ',
    store_object σ self = (x, σ')
    /\ (x ∉ dom σ) /\ σ ⊆ σ' /\ wf_instance σ' x
    /\ forall name, read σ' x name = self !! name.
Proof.
  unfold store_object.
  destruct (store_items_spec (map_to_list self) σ) as (items' & σ1 & -> & Hsub & Hrel).
  destruct (alloc σ1 (Instance (list_to_map items'))) as [x σ'] eqn:Halloc.
  apply alloc_spec in Halloc as (Hx & -> & Hsub1).
  assert (Hrel' : forall name,
    option_Forall2 (stored σ1) (self !! name)
      ((list_to_map items' : gmap string attr) !! name)).
  { intros name. pose proof (list_to_map_related _ _ _ Hrel name) as H.
    by rewrite list_to_map_to_list in H. }
  assert (Hkeep : forall r f, σ1 !! r = Some (FieldObject f) ->
                              <[x := Instance (list_to_map items')]> σ1 !! r
                              = Some (FieldObject f)).
  { intros r f Hf. by eapply lookup_weaken. }
  exists x, (<[x := Instance (list_to_map items')]> σ1).
  split; [done |]. split.
  { intros Hin. apply Hx. by eapply (subseteq_dom σ σ1). }
  split; [by etrans |]. split.
  - exists (list_to_map items'). split; [by rewrite lookup_insert_eq |].
    intros name a Hname. specialize (Hrel' name). rewrite Hname in Hrel'.
    inversion Hrel' as [v a' Hst|]; subst.
    destruct a as [w|r]; simpl in *; [done |].
    destruct Hst as (f & -> & Hf). by rewrite (Hkeep r f Hf).
  - intros name. unfold read. rewrite lookup_insert_eq.
    destruct (Hrel' name) as [v a Hst|]; [| done].
    destruct a as [w|r]; simpl in Hst; [by subst |].
    destruct Hst as (f & -> & Hf). by rewrite (Hkeep r f Hf).
Qed.

(** Reading [x] depends on the objects that [x] reaches only. *)
Lemma read_frame σ1 σ2 x :
  (forall r, reaches σ1 x r -> σ2 !! r = σ1 !! r) ->
  forall name, read σ2 x name = read σ1 x name.
Proof.
  intros Hsame name. unfold read. rewrite (Hsame x) by by left.
  destruct (σ1 !! x) as [[f|d]|] eqn:Hx; try done.
  destruct (d !! name) as [[v|r]|] eqn:Hname; try done.
  rewrite (Hsame r); [done |]. right. by exists d, name.
Qed.

(** A setter of [x] writes [x] and, at most, one new object. *)
Lemma store_set_frame slot σ x t σ' :
  store_set slot σ x t = Ok σ' ->
  forall r, r ∈ dom σ -> r ≠ x -> σ' !! r = σ !! r.
Proof.
  unfold store_set. intros Hset r Hr Hne.
  destruct (σ !! x) as [[f|d]|]; try discriminate.
  destruct t as [v|r0].
  - destruct (coerce v) as [[| | | | | | |f]|]; try discriminate.
    unfold alloc in Hset. injection Hset as <-.
    rewrite lookup_insert_ne by done.
    rewrite lookup_insert_ne; [done |].
    intros <-. by apply (is_fresh (dom σ)).
  - destruct (σ !! r0) as [[f|d0]|]; try discriminate.
    injection Hset as <-. by rewrite lookup_insert_ne.
Qed.

(** C8.  For an instance [x] whose slots refer to Field objects,
    [duplicate] returns a new instance [y] and leaves the objects of the
    store as they were; [y] reads as [x] does, attribute by attribute; no
    object that [y] consists of is an object that [x] consists of; and
    neither assigning to a slot of one of them nor changing in place a Field
    that one of them holds changes what the other reads. *)
Theorem C8_duplicate_is_independent_deep_copy σ x :
  wf_instance σ x ->
  exists y σ',
    duplicate σ x = Some (y, σ')
    /\ y ≠ x /\ (y ∉ dom σ) /\ σ ⊆ σ'
    /\ wf_instance σ' y
    /\ (forall name, read σ' y name = read σ x name)
    /\ (forall name, read σ' x name = read σ x name)
    /\ (forall r, reaches σ' x r -> ~ reaches σ' y r)
    /\ (forall slot t σ'', store_set slot σ' y t = Ok σ'' ->
          forall name, read σ'' x name = read σ' x name)
    /\ (forall slot t σ'', store_set slot σ' x t = Ok σ'' ->
          forall name, read σ'' y name = read σ' y name)
    /\ (forall r f name, reaches σ' y r ->
          read (mutate σ' r f) x name = read σ' x name)
    /\ (forall r f name, reaches σ' x r ->
          read (mutate σ' r f) y name = read σ' y name).
Proof.
  intros Hwf.
  destruct (duplicate_spec σ x Hwf) as (y & σ' & d & d' & Hdup & Hy & Hsub & Hx & Hy' & Hrel).
  destruct Hwf as (d0 & Hx0 & Hwf). rewrite Hx in Hx0. injection Hx0 as <-.
  assert (Hx' : σ' !! x = Some (Instance d)) by by eapply lookup_weaken.
  assert (Hxdom : x ∈ dom σ) by (apply elem_of_dom; eauto).
  assert (Hold : forall r, reaches σ' x r -> r ∈ dom σ).
  { intros r [-> | (d1 & name & Hd1 & Hname)]; [done |].
    rewrite Hx' in Hd1. injection Hd1 as <-.
    specialize (Hwf name (Ref r) Hname). simpl in Hwf.
    apply is_FieldObject_Some in Hwf as [f Hf]. apply elem_of_dom. eauto. }
  assert (Hnew : forall r, reaches σ' y r -> (r ∉ dom σ) /\ r ∈ dom σ').
  { intros r [-> | (d1 & name & Hd1 & Hname)].
    { split; [done |]. apply elem_of_dom. eauto. }
    rewrite Hy' in Hd1. injection Hd1 as <-.
    specialize (Hrel name). rewrite Hname in Hrel.
    inversion Hrel as [a a' Hcopy Ha|]; subst.
    destruct a as [v|r0]; simpl in Hcopy; [discriminate |].
    destruct Hcopy as (r' & f & [= ->] & Hr' & _ & Hf).
    split; [done |]. apply elem_of_dom. eauto. }
  assert (Hne : y ≠ x) by (intros ->; done).
  exists y, σ'. split; [done |]. split; [done |]. split; [done |]. split; [done |].
  split.
  { exists d'. split; [done |]. intros name a Hname.
    specialize (Hrel name). rewrite Hname in Hrel.
    inversion Hrel as [a0 a' Hcopy Ha|]; subst.
    destruct a0 as [v|r0]; simpl in Hcopy; [by subst |].
    destruct Hcopy as (r' & f & -> & _ & _ & Hf). simpl. by rewrite Hf. }
  split.
  { intros name. unfold read. rewrite Hy', Hx.
    destruct (Hrel name) as [a a' Hcopy|]; [| done].
    destruct a as [v|r0]; simpl in Hcopy; [by subst |].
    destruct Hcopy as (r' & f & -> & _ & Hr0 & Hf). by rewrite Hr0, Hf. }
  assert (Hframe : forall name, read σ' x name = read σ x name).
  { apply read_frame. intros r [-> | (d1 & name & Hd1 & Hname)]; [congruence |].
    rewrite Hx in Hd1. injection Hd1 as <-.
    specialize (Hwf name (Ref r) Hname). simpl in Hwf.
    apply is_FieldObject_Some in Hwf as [f Hf].
    rewrite Hf. by eapply lookup_weaken. }
  split; [done |]. split.
  { intros r Hr Hr'. apply Hold in Hr. apply Hnew in Hr' as [Hr' _]. done. }
  split.
  { intros slot t σ'' Hset. apply read_frame. intros r Hr.
    apply (store_set_frame _ _ _ _ _ Hset).
    - apply Hold in Hr. by eapply (subseteq_dom σ σ').
    - intros ->. by apply Hold in Hr. }
  split.
  { intros slot t σ'' Hset. apply read_frame. intros r Hr.
    apply (store_set_frame _ _ _ _ _ Hset).
    - by apply Hnew in Hr as [_ ?].
    - intros ->. by apply Hnew in Hr as [? _]. }
  split.
  { intros r f. intros name Hr. revert name. apply read_frame. intros r0 Hr0.
    unfold mutate. rewrite lookup_insert_ne; [done |].
    intros <-. apply Hold in Hr0. by apply Hnew in Hr as [? _]. }
  { intros r f. intros name Hr. revert name. apply read_frame. intros r0 Hr0.
    unfold mutate. rewrite lookup_insert_ne; [done |].
    intros <-. apply Hold in Hr. by apply Hnew in Hr0 as [? _]. }
Qed.

End StoreProperties.

(** * The reference model: derived defaults, instances and counterexamples *)

Import SpecModel.

Local Abbreviation SValue := (PyValue SField).

(** C9.  In the reference model of [fields]: the U, k and epsilon slots of a
    wind-tunnel inlet are the fields derived from the ABL conditions and
    depend on nothing else, so that two constructions from the same
    conditions agree on them whatever their other arguments; the U slot
    carries the reference velocity of the conditions, so that conditions
    with different reference velocities give different U. *)
Theorem C9_WindTunnelInlet_defaults_from_ABL (abl abl' : ABL)
  (refLevels T p nut refLevels' T' p' nut' : SValue)
  (s s' : gmap string SValue) :
  WindTunnelInletBoundaryCondition abl refLevels T p nut = Ok s ->
  WindTunnelInletBoundaryCondition abl' refLevels' T' p' nut' = Ok s' ->
  (abl = abl' ->
     s !! "_U" = s' !! "_U" /\ s !! "_k" = s' !! "_k"
     /\ s !! "_epsilon" = s' !! "_epsilon")
  /\ Uref_of (s !! "_U") = Some (Uref abl)
  /\ (Uref abl <> Uref abl' ->
      Uref_of (s !! "_U") <> Uref_of (s' !! "_U") /\ s !! "_U" <> s' !! "_U").
Proof.
  intros (HU & Hk & He)%WindTunnelInlet_slots (HU' & Hk' & He')%WindTunnelInlet_slots.
  rewrite HU, Hk, He, HU', Hk', He'. simpl. split; [by intros -> |].
  split; [done |]. intros Hne. split; congruence.
Qed.

Lemma C9_WindTunnelInlet_defaults_from_ABL_witness :
  exists s s',
    WindTunnelInletBoundaryCondition abl_5 PNone PNone PNone PNone = Ok s
    /\ WindTunnelInletBoundaryCondition abl_8 (PList [PInt 2; PInt 3]) PNone
         (PStr "fixedValue 0") PNone = Ok s'
    /\ Uref_of (s !! "_U") = Some "5"
    /\ Uref_of (s !! "_U") <> Uref_of (s' !! "_U").
Proof.
  destruct (WindTunnelInletBoundaryCondition abl_5 PNone PNone PNone PNone)
    as [s|e] eqn:Hs; [| discriminate Hs].
  destruct (WindTunnelInletBoundaryCondition abl_8 (PList [PInt 2; PInt 3]) PNone
              (PStr "fixedValue 0") PNone) as [s'|e] eqn:Hs'; [| discriminate Hs'].
  destruct (C9_WindTunnelInlet_defaults_from_ABL _ _ _ _ _ _ _ _ _ _ _ _ Hs Hs')
    as (_ & HU & Hne).
  exists s, s'. split; [reflexivity |]. split; [reflexivity |].
  split; [exact HU |]. apply Hne. discriminate.
Defined.

(** ** Instances of the theorems *)

Lemma C1_supplied_arguments_forwarded_witness :
  a_U (WindTunnelOutletBoundaryCondition_args PNone PNone
         (PStr "fixedValue (1 0 0)") PNone PNone PNone PNone)
    = PStr "fixedValue (1 0 0)"
  /\ a_p (WindTunnelOutletBoundaryCondition_args PNone PNone
           (PStr "fixedValue (1 0 0)") PNone PNone PNone PNone)
     = PField (New fields.FixedValue [LStr "$pressure"] []).
Proof.
  pose proof (C1_supplied_arguments_forwarded abl_5 PNone PNone
                (PStr "fixedValue (1 0 0)") PNone PNone PNone PNone PNone PNone)
    as (_ & _ & _ & _ & _ & _ & (_ & _ & HU & Hp & _) & _).
  split; [apply HU | apply Hp]; reflexivity.
Defined.


Lemma C3_slots_hold_Field_instances_witness :
  exists s, run outlet_call = Ok s /\ Forall (holds_Field s) field_slots.
Proof.
  apply (C3_slots_hold_Field_instances outlet_call).
  - unfold accepted; simpl.
    repeat (apply Forall_cons; split); try apply Forall_nil_2; simpl; tauto.
  - exact I.
Defined.

Lemma C4_refLevels_tuple_of_ints_witness :
  normalize_refLevels (Field:=SField) (PTuple [PInt 4; PStr " 7"; PBool true])
    = Ok (PTuple [PInt 4; PInt 7; PInt 1]).
Proof.
  pose proof (C4_refLevels_tuple_of_ints (Field:=SField) (ABLConditions:=ABL)
                (PTuple [PInt 4; PStr " 7"; PBool true]))
    as (_ & _ & H & _).
  apply (proj1 (H eq_refl _ eq_refl) [4; 7; 1]).
  repeat constructor.
Defined.

Lemma C5_uninterpretable_input_is_fatal_witness :
  run (CallBoundaryCondition (ABLConditions:=ABL) (PStr "patch") PNone PNone
         (PTuple [PInt 1; PInt 0; PInt 0]) PNone PNone PNone PNone PNone PNone)
    = Raise (InvalidFieldSpec (PTuple [PInt 1; PInt 0; PInt 0])).
Proof.
  apply (C5_uninterpretable_input_is_fatal
           (CallBoundaryCondition (ABLConditions:=ABL) (PStr "patch") PNone PNone
              (PTuple [PInt 1; PInt 0; PInt 0]) PNone PNone PNone PNone PNone PNone)
           1 (PTuple [PInt 1; PInt 0; PInt 0])).
  - reflexivity.
  - reflexivity.
  - repeat split; discriminate.
  - exact I.
  - intros [|[|j]] w Hj; [| lia | lia]. intros [= <-]. by left.
Defined.

Lemma C10_falsy_input_is_omitted_witness :
  set_p (∅ : gmap string SValue) (PInt 0) = set_p ∅ PNone
  /\ set_k (∅ : gmap string SValue) (PStr "") = Ok (<["_k" := ZeroGradient]> ∅).
Proof.
  split.
  - apply (C10_falsy_input_is_omitted ∅ (PInt 0)). reflexivity.
  - apply (C10_falsy_input_is_omitted ∅ (PStr "")). reflexivity.
Defined.

Lemma C8_duplicate_is_independent_deep_copy_witness :
  exists y σ',
    duplicate outlet_store.2 outlet_store.1 = Some (y, σ')
    /\ y ≠ outlet_store.1
    /\ (forall name, read σ' y name = read outlet_store.2 outlet_store.1 name)
    /\ (forall slot t σ'', store_set slot σ' y t = Ok σ'' ->
          forall name, read σ'' outlet_store.1 name = read σ' outlet_store.1 name).
Proof.
  destruct (C8_duplicate_is_independent_deep_copy outlet_store.2 outlet_store.1)
    as (y & σ' & Hdup & Hne & _ & _ & _ & Hread & _ & _ & Hset & _).
  - eexists. split; [vm_compute; reflexivity |].
    apply map_Forall_to_list. vm_compute. repeat constructor.
  - exists y, σ'. repeat split; assumption.
Defined.

(** ** Counterexamples to the claims as the specification words them *)

(** C1: a velocity of 0 is supplied to the indoor wall, and the base
    initialiser receives the default instead. *)
Lemma C1_falsy_argument_not_forwarded :
  ~ forwards_unless_omitted
      (PField (New fields.FixedValue [LStr "(0 0 0)"] []))
      (PInt 0)
      (a_U (IndoorWallBoundaryCondition_args (ABLConditions:=ABL)
              PNone PNone (PInt 0) PNone PNone PNone PNone PNone PNone)).
Proof. intros [H _]. by specialize (H ltac:(discriminate)). Qed.

(** C4: three levels give a tuple of three ints. *)
Lemma C4_three_levels_not_a_pair :
  exists s out,
    BoundaryCondition (PStr "patch") (PList [PInt 1; PInt 2; PInt 3])
      PNone PNone PNone PNone PNone PNone PNone PNone = Ok s
    /\ s !! "refLevels" = Some out
    /\ out = PTuple [PInt 1; PInt 2; PInt 3]
    /\ ~ is_pair_of_ints (out : SValue).
Proof.
  eexists _, _. split; [reflexivity |]. split; [reflexivity |].
  split; [reflexivity |]. intros (m & n & [=]).
Qed.

(** C5: an empty list is not a Field instance, not a mapping, not a string;
    as an argument it is false, and the constructor returns. *)
Lemma C5_falsy_uninterpretable_input_accepted :
  uninterpretable (PList [] : SValue)
  /\ exists s,
      BoundaryCondition (PStr "patch") PNone (PList []) PNone PNone PNone PNone
        PNone PNone PNone = Ok s
      /\ s !! "_T" = Some (PField (New fields.ZeroGradient [] [])).
Proof.
  split; [by repeat split |].
  eexists. split; reflexivity.
Qed.

(** C7: with T omitted, the temperature slot of a fixed inlet is assigned the
    default of the base. *)
Lemma C7_FixedInlet_temperature_is_defaulted :
  exists s,
    FixedInletBoundaryCondition PNone PNone PNone PNone PNone PNone PNone PNone
      PNone = Ok s
    /\ s !! "_T" = Some (PField (New fields.ZeroGradient [] []))
    /\ s !! "_T" <> None /\ s !! "_T" <> Some (PNone : SValue).
Proof.
  eexists. split; [reflexivity |]. split; [reflexivity |].
  split; discriminate.
Qed.

(** * Further properties of the class *)

Section Assignment.
Context {Field ABLConditions : Type} `{!FieldsModule Field ABLConditions}.

Local Abbreviation Value := (PyValue Field).
Local Abbreviation Exc := (PyExc Field).
Local Abbreviation PyObject := (gmap string (PyValue Field)).
Local Abbreviation Args := (@InitArgs Field).

Implicit Types (v t u : Value) (self s : PyObject) (a : Args) (x y : property).

Lemma fset_unfold x self t :
  fset x self t = f ← coerce t; Ok (<[slot_of x := f]> self).
Proof. by destruct x. Qed.

Lemma fget_unfold x self : fget x self = getattr self (slot_of x).
Proof. by destruct x. Qed.

Lemma slot_of_inj x y : slot_of x = slot_of y -> x = y.
Proof. destruct x, y; simpl; intros [=]; reflexivity. Qed.

Lemma slot_of_field_slots x : slot_of x ∈ field_slots.
Proof. unfold field_slots. destruct x; simpl; set_solver. Qed.

Lemma field_slots_slot_of name :
  name ∈ field_slots -> exists x, name = slot_of x.
Proof.
  unfold field_slots. rewrite !elem_of_cons, elem_of_nil.
  intros [-> | [-> | [-> | [-> | [-> | [-> | [-> | [-> | []]]]]]]]].
  - by exists prop_T.
  - by exists prop_U.
  - by exists prop_p.
  - by exists prop_k.
  - by exists prop_epsilon.
  - by exists prop_nut.
  - by exists prop_alphat.
  - by exists prop_p_rgh.
Qed.

Lemma coerce_instance v w : coerce v = Ok w -> exists f : Field, w = PField f.
Proof. apply tryGetField_instance. Qed.

Lemma fset_Ok x self t self' :
  fset x self t = Ok self' <->
  exists f : Field, coerce t = Ok (PField f) /\ self' = <[slot_of x := PField f]> self.
Proof.
  rewrite fset_unfold. split.
  - intros (w & Hw & [= <-])%bind_Ok.
    destruct (coerce_instance _ _ Hw) as [f ->]. eauto.
  - intros (f & -> & ->). done.
Qed.

(** The value assigned is read back: after [bc.x = t] the getter gives a
    Field instance, which is [t] itself when [t] is one and [ZeroGradient()]
    when [t] is false. *)
Theorem X1_assigned_value_is_read_back x self t self' :
  fset x self t = Ok self' ->
  exists f : Field,
    fget x self' = Ok (PField f)
    /\ coerce t = Ok (PField f)
    /\ (isinstance_Field t = true -> PField f = t)
    /\ (truthy t = false -> PField f = ZeroGradient).
Proof.
  intros (f & Hf & ->)%fset_Ok. exists f.
  split; [| split; [done | split]].
  - rewrite fget_unfold. unfold getattr. by rewrite lookup_insert_eq.
  - intros Ht. rewrite coerce_Field in Hf by done. congruence.
  - intros Ht. rewrite coerce_falsy in Hf by done. congruence.
Qed.

(** An assignment touches its own attribute only: every other attribute
    (the type, the levels, the seven other slots) is as before, and an
    object whose eight slots hold Field instances still is one. *)
Theorem X2_assignment_keeps_the_rest x self t self' :
  fset x self t = Ok self' ->
  (forall name, name <> slot_of x -> self' !! name = self !! name)
  /\ (forall y, y <> x -> fget y self' = fget y self)
  /\ (Forall (holds_Field self) field_slots ->
      Forall (holds_Field self') field_slots).
Proof.
  intros (f & Hf & ->)%fset_Ok. split; [| split].
  - intros name Hne. by rewrite lookup_insert_ne.
  - intros y Hne. rewrite !fget_unfold. unfold getattr.
    rewrite lookup_insert_ne; [done |]. intros Heq%slot_of_inj. by subst.
  - intros Hall. eapply Forall_impl; [exact Hall |].
    intros name (g & Hg). unfold holds_Field.
    destruct (decide (slot_of x = name)) as [<- | Hne].
    + exists f. by rewrite lookup_insert_eq.
    + exists g. by rewrite lookup_insert_ne.
Qed.

(** Assignments to two different properties can be swapped when at most one
    of them raises; and of two assignments to one property the second
    stands, when the first does not raise. *)
Theorem X3_assignments_commute_and_overwrite x y self t u :
  (x <> y -> returns (coerce t) \/ returns (coerce u) ->
     (s ← fset x self t; fset y s u) = (s ← fset y self u; fset x s t))
  /\ (returns (coerce t) ->
      (s ← fset x self t; fset x s u) = fset x self u).
Proof.
  split.
  - intros Hne Hret. rewrite !fset_unfold.
    assert (Hslot : slot_of x <> slot_of y) by (by intros ?%slot_of_inj).
    destruct (coerce t) as [f|e] eqn:Ht, (coerce u) as [g|e'] eqn:Hu; simpl;
      rewrite ?fset_unfold, ?Ht, ?Hu; simpl; try done.
    + by rewrite insert_insert_ne.
    + destruct Hret; done.
  - intros Hret. rewrite !fset_unfold.
    destruct (coerce t) as [f|e]; [simpl | done].
    rewrite fset_unfold. destruct (coerce u) as [g|e]; [simpl | done].
    by rewrite insert_insert_eq.
Qed.

(** Assigning to a property the value it has ([bc.x = bc.x]) changes
    nothing, once the slot holds a Field instance. *)
Theorem X4_assigning_own_value_is_identity x self :
  holds_Field self (slot_of x) ->
  (v ← fget x self; fset x self v) = Ok self.
Proof.
  intros (f & Hf). rewrite fget_unfold. unfold getattr. rewrite Hf. simpl.
  rewrite fset_unfold, coerce_Field by done. simpl.
  by rewrite insert_id.
Qed.

(** What [tryGetField] returns it returns unchanged when given it again,
    and so does a setter's coercion. *)
Theorem X5_tryGetField_idempotent v w :
  tryGetField v = Ok w -> tryGetField w = Ok w /\ coerce w = Ok w.
Proof.
  intros [f ->]%tryGetField_instance.
  split; [by apply tryGetField_Field | by apply coerce_Field].
Qed.

(** The exceptions of [tryGetField]: on a mapping, the exception of
    [Field.fromDict], as it is; on any other input, the [ValueError] that
    names the input, whatever [Field.fromString] raised; on a Field
    instance, none. *)
Theorem X6_tryGetField_exceptions v e :
  tryGetField v = Raise e ->
  isinstance_Field v = false
  /\ ((isinstance_dict v = true /\ Field_fromDict v = Raise e)
      \/ (isinstance_dict v = false /\ raises (Field_fromString v)
          /\ e = InvalidFieldSpec v)).
Proof.
  unfold tryGetField. destruct (isinstance_Field v); [done |].
  intros Hraise. split; [done |]. destruct (isinstance_dict v).
  - left. split; [done |].
    destruct (Field_fromDict v); simpl in Hraise; [discriminate |].
    by injection Hraise as <-.
  - right. split; [done |].
    destruct (Field_fromString v); [discriminate |]. by injection Hraise as <-.
Qed.

End Assignment.

Lemma py_map_returns_iff {E A B} (f : A -> result E B) (l : list A) :
  returns (py_map f l) <-> Forall (fun x => returns (f x)) l.
Proof.
  split; [| apply py_map_returns].
  intros (ys & Hys%py_map_Ok)%returns_Ok.
  induction Hys as [|x y l ys Hx _ IH]; constructor; [| done].
  by rewrite Hx.
Qed.

Lemma py_map_Raise_inv {E A B} (f : A -> result E B) (l : list A) e :
  py_map f l = Raise e ->
  exists i x, l !! i = Some x /\ f x = Raise e
    /\ forall j y, (j < i)%nat -> l !! j = Some y -> returns (f y).
Proof.
  induction l as [|z l IH]; simpl; [done |].
  destruct (f z) as [b|e'] eqn:Hz; simpl.
  - destruct (py_map f l) as [ys|e'] eqn:Hl; simpl; [done |].
    intros [= ->]. destruct (IH eq_refl) as (i & x & Hi & Hx & Hbefore).
    exists (S i), x. split; [done |]. split; [done |].
    intros [|j] y Hj; simpl.
    + intros [= <-]. by rewrite Hz.
    + apply Hbefore. lia.
  - intros [= ->]. exists 0%nat, z. split; [done |]. split; [done |].
    intros j y Hj. lia.
Qed.

Section Construction.
Context {Field ABLConditions : Type} `{!FieldsModule Field ABLConditions}.

Local Abbreviation Value := (PyValue Field).
Local Abbreviation Exc := (PyExc Field).
Local Abbreviation PyObject := (gmap string (PyValue Field)).
Local Abbreviation Args := (@InitArgs Field).

Implicit Types (v t u : Value) (self s : PyObject) (a : Args) (x y : property).

Ltac skip_slots :=
  repeat first
    [ rewrite (lookup_insert_ne _ "_p_rgh") by congruence
    | rewrite (lookup_insert_ne _ "_alphat") by congruence
    | rewrite (lookup_insert_ne _ "_nut") by congruence
    | rewrite (lookup_insert_ne _ "_epsilon") by congruence
    | rewrite (lookup_insert_ne _ "_k") by congruence
    | rewrite (lookup_insert_ne _ "_p") by congruence
    | rewrite (lookup_insert_ne _ "_U") by congruence
    | rewrite (lookup_insert_ne _ "_T") by congruence ].

(** Constructing with field arguments is constructing without them and then
    assigning each property in turn: same object, or same exception. *)
Theorem X7_construction_is_default_then_assignments self a :
  BoundaryCondition__init__ self a =
    s ← BoundaryCondition__init__ self (no_fields (a_bcType a) (a_refLevels a));
    assign_fields s a.
Proof.
  unfold BoundaryCondition__init__, assign_fields, no_fields; simpl.
  destruct (normalize_refLevels (a_refLevels a)) as [rl|]; [simpl | done].
  unfold set_T, set_U, set_p, set_k, set_epsilon, set_nut, set_alphat, set_p_rgh.
  change (tryGetField (py_or ?x ZeroGradient)) with (coerce x).
  rewrite ?(coerce_falsy PNone eq_refl). simpl.
  destruct (coerce (a_T a)); [simpl | done].
  destruct (coerce (a_U a)); [simpl | done].
  destruct (coerce (a_p a)); [simpl | done].
  destruct (coerce (a_k a)); [simpl | done].
  destruct (coerce (a_epsilon a)); [simpl | done].
  destruct (coerce (a_nut a)); [simpl | done].
  destruct (coerce (a_alphat a)); [simpl | done].
  destruct (coerce (a_p_rgh a)); [simpl | done].
  f_equal. apply map_eq. intros i. unfold py_or; simpl.
  destruct (decide (i = "_p_rgh")) as [->|]; [by simplify_map_eq |].
  destruct (decide (i = "_alphat")) as [->|]; [by simplify_map_eq |].
  destruct (decide (i = "_nut")) as [->|]; [by simplify_map_eq |].
  destruct (decide (i = "_epsilon")) as [->|]; [by simplify_map_eq |].
  destruct (decide (i = "_k")) as [->|]; [by simplify_map_eq |].
  destruct (decide (i = "_p")) as [->|]; [by simplify_map_eq |].
  destruct (decide (i = "_U")) as [->|]; [by simplify_map_eq |].
  destruct (decide (i = "_T")) as [->|]; [by simplify_map_eq |].
  skip_slots. done.
Qed.

Lemma coerce_returns_iff v :
  returns (coerce v) <->
  truthy v = false \/ isinstance_Field v = true
  \/ (isinstance_dict v = true /\ returns (Field_fromDict v))
  \/ (isinstance_Field v = false /\ isinstance_dict v = false
      /\ returns (Field_fromString v)).
Proof.
  destruct (truthy v) eqn:Ht.
  2:{ rewrite coerce_falsy by done. simpl. tauto. }
  rewrite coerce_truthy by done. unfold tryGetField.
  destruct (isinstance_Field v) eqn:Hf; [simpl; tauto |].
  destruct (isinstance_dict v) eqn:Hd.
  - destruct (Field_fromDict v); simpl; intuition discriminate.
  - destruct (Field_fromString v); simpl; intuition discriminate.
Qed.

(** A construction returns exactly when the levels can be normalized and
    each field argument is false, or a Field instance, or a mapping that
    [Field.fromDict] takes, or another value that [Field.fromString] takes:
    nothing else makes it fail. *)
Theorem X8_construction_returns_exactly_when self a :
  returns (BoundaryCondition__init__ self a) <->
  returns (normalize_refLevels (a_refLevels a))
  /\ Forall (fun v =>
       truthy v = false \/ isinstance_Field v = true
       \/ (isinstance_dict v = true /\ returns (Field_fromDict v))
       \/ (isinstance_Field v = false /\ isinstance_dict v = false
           /\ returns (Field_fromString v))) (field_args a).
Proof.
  rewrite init_loop.
  assert (Hall : Forall (fun v => returns (coerce v)) (field_args a) <->
    Forall (fun v =>
       truthy v = false \/ isinstance_Field v = true
       \/ (isinstance_dict v = true /\ returns (Field_fromDict v))
       \/ (isinstance_Field v = false /\ isinstance_dict v = false
           /\ returns (Field_fromString v))) (field_args a)).
  { split; intros Hall; (eapply Forall_impl; [exact Hall |]);
      intros v; apply coerce_returns_iff. }
  rewrite <- Hall, <- py_map_returns_iff.
  destruct (normalize_refLevels (a_refLevels a)) as [rl|]; [| simpl; tauto].
  change (Ok rl ≫= ?k) with (k rl). cbv beta.
  destruct (py_map coerce (field_args a)); simpl; tauto.
Qed.

(** The exception of a failed construction is that of the levels when they
    cannot be normalized; otherwise it is that of the first property, in the
    order T, U, p, k, epsilon, nut, alphat, p_rgh, whose argument cannot be
    coerced. *)
Theorem X9_construction_raises_first_failure self a e :
  BoundaryCondition__init__ self a = Raise e <->
  normalize_refLevels (a_refLevels a) = Raise e
  \/ (returns (normalize_refLevels (a_refLevels a))
      /\ exists i v, field_args a !! i = Some v /\ coerce v = Raise e
           /\ forall j w, (j < i)%nat -> field_args a !! j = Some w ->
                          returns (coerce w)).
Proof.
  rewrite init_loop.
  destruct (normalize_refLevels (a_refLevels a)) as [rl|e0].
  - change (Ok rl ≫= ?k) with (k rl). cbv beta.
    destruct (py_map coerce (field_args a)) as [fs|e1] eqn:Hfs; simpl.
    + split; [discriminate |].
      intros [[=] | (_ & i & v & Hi & Hv & Hbefore)].
      rewrite (py_map_first_raise coerce _ i v e Hi Hv Hbefore) in Hfs.
      discriminate.
    + split.
      * intros [= ->]. right. split; [done |]. by apply py_map_Raise_inv.
      * intros [[=] | (_ & i & v & Hi & Hv & Hbefore)].
        rewrite (py_map_first_raise coerce _ i v e Hi Hv Hbefore) in Hfs.
        by injection Hfs as ->.
  - simpl. split; [intros [= ->]; by left |].
    intros [[= ->] | ([] & _)]. done.
Qed.

Lemma init_slot self a s x :
  BoundaryCondition__init__ self a = Ok s ->
  exists f : Field,
    s !! slot_of x = Some (PField f) /\ coerce (arg_of x a) = Ok (PField f).
Proof.
  intros (rl & fT & fU & fp & fk & fe & fn & fa & fr & _ & HT & HU & Hp & Hk
          & He & Hn & Ha & Hr & ->)%init_inv.
  destruct x; simpl; eexists; (split; [by simplify_map_eq | eassumption]).
Qed.

Lemma init_slot_Field self a s x v :
  BoundaryCondition__init__ self a = Ok s ->
  arg_of x a = v -> isinstance_Field v = true ->
  s !! slot_of x = Some v.
Proof.
  intros Hinit <- Hv. destruct (init_slot _ _ _ x Hinit) as (f & Hs & Hc).
  rewrite coerce_Field in Hc by done. congruence.
Qed.

Lemma init_slot_falsy self a s x v :
  BoundaryCondition__init__ self a = Ok s ->
  arg_of x a = v -> truthy v = false ->
  s !! slot_of x = Some ZeroGradient.
Proof.
  intros Hinit <- Hv. destruct (init_slot _ _ _ x Hinit) as (f & Hs & Hc).
  rewrite coerce_falsy in Hc by done. congruence.
Qed.

Lemma init_type self a s :
  BoundaryCondition__init__ self a = Ok s -> s !! "type" = Some (a_bcType a).
Proof.
  intros (rl & fT & fU & fp & fk & fe & fn & fa & fr & _ & _ & _ & _ & _ & _
          & _ & _ & _ & ->)%init_inv.
  by simplify_map_eq.
Qed.

(** Each slot of a constructed object holds the coercion of its own
    argument and depends on no other argument: the argument itself when it
    is a Field instance, [ZeroGradient()] when it is false. *)
Theorem X10_slot_holds_coercion_of_its_argument self a s x :
  BoundaryCondition__init__ self a = Ok s ->
  exists f : Field,
    fget x s = Ok (PField f)
    /\ coerce (arg_of x a) = Ok (PField f)
    /\ (isinstance_Field (arg_of x a) = true -> fget x s = Ok (arg_of x a))
    /\ (truthy (arg_of x a) = false -> fget x s = Ok ZeroGradient).
Proof.
  intros Hinit. destruct (init_slot _ _ _ x Hinit) as (f & Hs & Hc).
  assert (Hget : fget x s = Ok (PField f)).
  { rewrite fget_unfold. unfold getattr. by rewrite Hs. }
  exists f. split; [done |]. split; [done |]. split.
  - intros Hv. rewrite coerce_Field in Hc by done. congruence.
  - intros Hv. rewrite coerce_falsy in Hc by done. congruence.
Qed.

(** What a class fixes: its instances have the type of the class (['wall']
    or ['patch']; the base takes it from its argument), and the slots that
    the constructor does not take from its arguments hold the same fields
    whatever is supplied; so the wind-tunnel classes leave alphat and p_rgh
    at [ZeroGradient()], and the fixed inlet and outlet and the top and
    sides ignore the nut (and alphat, p_rgh) they are given. *)
Theorem X11_type_and_fixed_slots_of_each_class (c : Call) s :
  run c = Ok s ->
  s !! "type" = Some (kind_of c)
  /\ Forall (fun item => s !! item.1 = Some item.2) (fixed_slots c).
Proof.
  rewrite run_call_args. intros Hinit. split.
  - rewrite (init_type _ _ _ Hinit). by destruct c.
  - destruct c; simpl; repeat constructor; simpl;
      first
        [ by apply (init_slot_Field _ _ _ prop_T _ Hinit)
        | by apply (init_slot_Field _ _ _ prop_U _ Hinit)
        | by apply (init_slot_Field _ _ _ prop_p _ Hinit)
        | by apply (init_slot_Field _ _ _ prop_k _ Hinit)
        | by apply (init_slot_Field _ _ _ prop_epsilon _ Hinit)
        | by apply (init_slot_Field _ _ _ prop_nut _ Hinit)
        | by eapply (init_slot_falsy _ _ _ prop_alphat _ Hinit)
        | by eapply (init_slot_falsy _ _ _ prop_p_rgh _ Hinit)
        | by apply (init_slot_Field _ _ _ prop_alphat _ Hinit)
        | by apply (init_slot_Field _ _ _ prop_p_rgh _ Hinit) ].
Qed.

End Construction.

Section Levels.
Context {Field ABLConditions : Type} `{!FieldsModule Field ABLConditions}.

Local Abbreviation Value := (PyValue Field).
Local Abbreviation PyObject := (gmap string (PyValue Field)).
Local Abbreviation Args := (@InitArgs Field).

(** The bounding box and the empty boundary condition take levels and do
    not use them: whatever is supplied, even what [int] rejects, they return
    an object whose levels are [(1, 1)]. *)
Theorem X12_bounding_box_and_empty_ignore_levels (refLevels : Value) :
  exists s s' : PyObject,
    BoundingBoxBoundaryCondition refLevels = Ok s
    /\ EmptyBoundaryCondition refLevels = Ok s'
    /\ s !! "refLevels" = Some (PTuple [PInt 1; PInt 1])
    /\ s' !! "refLevels" = Some (PTuple [PInt 1; PInt 1]).
Proof. eexists _, _. repeat split; reflexivity. Qed.






End Levels.

Section Copies.
Context {Field ABLConditions : Type} `{!FieldsModule Field ABLConditions}.

Local Abbreviation Value := (PyValue Field).
Local Abbreviation store := (gmap nat (@object Field)).
Local Abbreviation attrs := (gmap string (@attr Field)).

Implicit Types (σ : store) (memo : gmap nat nat) (a : @attr Field) (d : attrs).

Lemma wf_instance_mono σ σ' x :
  σ ⊆ σ' -> wf_instance σ x -> wf_instance σ' x.
Proof.
  intros Hsub (d & Hx & Hwf). exists d. split; [by eapply lookup_weaken |].
  intros name a Hname. specialize (Hwf name a Hname).
  destruct a as [v|r]; simpl in *; [done |].
  apply is_FieldObject_Some in Hwf as [f Hf].
  apply is_FieldObject_Some. exists f. by eapply lookup_weaken.
Qed.

Lemma read_weaken σ σ' x :
  σ ⊆ σ' -> wf_instance σ x -> forall name, read σ' x name = read σ x name.
Proof.
  intros Hsub (d & Hx & Hwf). apply read_frame.
  intros r [-> | (d1 & name & Hd1 & Hname)].
  - rewrite Hx. by eapply lookup_weaken.
  - rewrite Hx in Hd1. injection Hd1 as <-.
    specialize (Hwf name (Ref r) Hname). simpl in Hwf.
    apply is_FieldObject_Some in Hwf as [f Hf].
    rewrite Hf. by eapply lookup_weaken.
Qed.

Lemma duplicate_inv σ x y σ' :
  wf_instance σ x -> duplicate σ x = Some (y, σ') ->
  (y ∉ dom σ) /\ σ ⊆ σ' /\ wf_instance σ' y
  /\ forall name, read σ' y name = read σ x name.
Proof.
  intros Hwf Hdup.
  destruct (duplicate_spec σ x Hwf)
    as (y0 & σ0 & d & d' & Hdup0 & Hy & Hsub & Hx & Hy' & Hrel).
  rewrite Hdup in Hdup0. injection Hdup0 as <- <-.
  split; [done |]. split; [done |]. split.
  - exists d'. split; [done |]. intros name a Hname.
    specialize (Hrel name). rewrite Hname in Hrel.
    inversion Hrel as [a0 a' Hcopy Ha|]; subst.
    destruct a0 as [v|r0]; simpl in Hcopy; [by subst |].
    destruct Hcopy as (r' & f & -> & _ & _ & Hf). simpl. by rewrite Hf.
  - intros name. unfold read. rewrite Hy', Hx.
    destruct (Hrel name) as [a a' Hcopy|]; [| done].
    destruct a as [v|r0]; simpl in Hcopy; [by subst |].
    destruct Hcopy as (r' & f & -> & _ & Hr0 & Hf). by rewrite Hr0, Hf.
Qed.

Lemma duplicate_returns σ x :
  wf_instance σ x -> exists y σ', duplicate σ x = Some (y, σ').
Proof.
  intros Hwf. destruct (duplicate_spec σ x Hwf) as (y & σ' & _ & _ & Hdup & _).
  eauto.
Qed.

(** Any object of the class, once in the store, can be duplicated: the copy
    is another object and both read, attribute by attribute, as the object
    that was stored. *)
Theorem X14_stored_object_is_duplicated σ (self : gmap string Value) :
  exists x σ0 y σ',
    store_object σ self = (x, σ0)
    /\ duplicate σ0 x = Some (y, σ')
    /\ y <> x
    /\ forall name, read σ' y name = self !! name
                    /\ read σ' x name = self !! name.
Proof.
  destruct (store_object_spec σ self) as (x & σ0 & Hstore & _ & _ & Hwf & Hread).
  destruct (duplicate_returns σ0 x Hwf) as (y & σ' & Hdup).
  destruct (duplicate_inv _ _ _ _ Hwf Hdup) as (Hy & Hsub & _ & Hcopy).
  exists x, σ0, y, σ'. split; [done |]. split; [done |]. split.
  - intros ->. apply Hy. destruct Hwf as (d & Hx & _). apply elem_of_dom. eauto.
  - intros name. split; [by rewrite Hcopy |].
    by rewrite (read_weaken _ _ _ Hsub Hwf).
Qed.

(** A copy can be duplicated in its turn: the three objects are different
    and all read as the first one did. *)
Theorem X15_duplicate_of_a_duplicate σ x :
  wf_instance σ x ->
  exists y σ1 z σ2,
    duplicate σ x = Some (y, σ1)
    /\ duplicate σ1 y = Some (z, σ2)
    /\ y <> x /\ z <> x /\ z <> y
    /\ forall name,
         read σ2 z name = read σ x name
         /\ read σ2 y name = read σ x name
         /\ read σ2 x name = read σ x name.
Proof.
  intros Hwf.
  destruct (duplicate_returns σ x Hwf) as (y & σ1 & Hdup1).
  destruct (duplicate_inv _ _ _ _ Hwf Hdup1) as (Hy & Hsub1 & Hwfy & Hread1).
  destruct (duplicate_returns σ1 y Hwfy) as (z & σ2 & Hdup2).
  destruct (duplicate_inv _ _ _ _ Hwfy Hdup2) as (Hz & Hsub2 & Hwfz & Hread2).
  assert (Hxdom : x ∈ dom σ).
  { destruct Hwf as (d & Hx & _). apply elem_of_dom. eauto. }
  assert (Hydom : y ∈ dom σ1).
  { destruct Hwfy as (d & Hy1 & _). apply elem_of_dom. eauto. }
  exists y, σ1, z, σ2. split; [done |]. split; [done |].
  split; [by intros -> |]. split.
  { intros ->. apply Hz. by eapply (subseteq_dom σ σ1). }
  split; [by intros -> |].
  intros name. split; [by rewrite Hread2, Hread1 |]. split.
  - by rewrite (read_weaken _ _ _ Hsub2 Hwfy), Hread1.
  - rewrite (read_weaken σ1 σ2 x Hsub2 (wf_instance_mono _ _ _ Hsub1 Hwf)).
    by rewrite (read_weaken _ _ _ Hsub1 Hwf).
Qed.

Lemma follows_memo_mono memo memo' a a' :
  memo ⊆ memo' -> follows_memo memo a a' -> follows_memo memo' a a'.
Proof.
  intros Hsub. destruct a as [v|r]; simpl; [done |].
  intros (r' & -> & Hr). exists r'. split; [done |]. by eapply lookup_weaken.
Qed.

Lemma deepcopy_attr_memo σ memo a a' σ1 memo1 :
  memo_inj σ memo ->
  deepcopy_attr σ memo a = Some (a', σ1, memo1) ->
  memo ⊆ memo1 /\ σ ⊆ σ1 /\ memo_inj σ1 memo1 /\ follows_memo memo1 a a'.
Proof.
  intros Hinv. pose proof Hinv as [Hdom Hinj].
  destruct a as [v|r]; cbn [deepcopy_attr follows_memo].
  { intros [= <- <- <-]. split; [done |]. split; [done |]. by split. }
  destruct (memo !! r) as [r'|] eqn:Hr.
  { intros [= <- <- <-]. split; [done |]. split; [done |]. split; [done |].
    by exists r'. }
  destruct (σ !! r) as [[f|d]|]; try discriminate.
  destruct (alloc σ (FieldObject f)) as [r' σ'] eqn:Halloc.
  apply alloc_spec in Halloc as (Hfresh & -> & Hsub).
  intros [= <- <- <-].
  split; [by apply insert_subseteq |]. split; [done |]. split; [split |].
  - intros r1 r1'. rewrite dom_insert_L.
    destruct (decide (r = r1)) as [<- | Hne].
    + rewrite lookup_insert_eq. intros [= <-]. set_solver.
    + rewrite lookup_insert_ne by done. intros H1%Hdom. set_solver.
  - intros r1 r2 r0.
    destruct (decide (r = r1)) as [<- | Hne1], (decide (r = r2)) as [<- | Hne2];
      rewrite ?lookup_insert_eq, ?lookup_insert_ne by done; try done.
    + intros [= <-] H2%Hdom. done.
    + intros H1%Hdom [= <-]. done.
    + apply Hinj.
  - exists r'. by rewrite lookup_insert_eq.
Qed.

Lemma deepcopy_items_memo (items : list (string * @attr Field)) σ memo
  items' σ1 memo1 :
  memo_inj σ memo ->
  deepcopy_items σ memo items = Some (items', σ1, memo1) ->
  memo ⊆ memo1 /\ memo_inj σ1 memo1
  /\ Forall2 (fun i i' => i.1 = i'.1 /\ follows_memo memo1 i.2 i'.2) items items'.
Proof.
  revert σ memo items' σ1 memo1.
  induction items as [|[name a] items IH]; intros σ memo items' σ1 memo1 Hinv.
  { intros [= <- <- <-]. split; [done |]. split; [done |]. constructor. }
  cbn [deepcopy_items].
  destruct (deepcopy_attr σ memo a) as [[[a' σ0] memo0]|] eqn:Ha; [| done].
  destruct (deepcopy_attr_memo _ _ _ _ _ _ Hinv Ha) as (Hsub0 & _ & Hinv0 & Hfol).
  destruct (deepcopy_items σ0 memo0 items) as [[[rest σ2] memo2]|] eqn:Hrest;
    [| done].
  destruct (IH _ _ _ _ _ Hinv0 Hrest) as (Hsub2 & Hinv2 & Hrel).
  intros [= <- <- <-]. split; [by etrans |]. split; [done |].
  constructor; [| done]. split; [done |]. by eapply follows_memo_mono.
Qed.

(** A deep copy keeps the sharing of the original: two slots of the copy
    refer to one Field object exactly when the same two slots of the
    original do. *)
Theorem X16_duplicate_keeps_sharing σ x y σ' d d' n1 n2 r1 r2 :
  duplicate σ x = Some (y, σ') ->
  σ !! x = Some (Instance d) -> σ' !! y = Some (Instance d') ->
  d !! n1 = Some (Ref r1) -> d !! n2 = Some (Ref r2) ->
  exists r1' r2',
    d' !! n1 = Some (Ref r1') /\ d' !! n2 = Some (Ref r2')
    /\ (r1 = r2 <-> r1' = r2').
Proof.
  unfold duplicate, deepcopy. intros Hdup Hx Hy' H1 H2. rewrite Hx in Hdup.
  destruct (alloc σ (Instance ∅)) as [y0 σ0] eqn:Halloc.
  apply alloc_spec in Halloc as (Hy0 & -> & Hsub0).
  destruct (deepcopy_items (<[y0 := Instance ∅]> σ) {[x := y0]} (map_to_list d))
    as [[[items σ1] memo1]|] eqn:Hitems; [| done].
  injection Hdup as -> <-.
  rewrite lookup_insert_eq in Hy'. injection Hy' as <-.
  assert (Hinit : memo_inj (<[y := Instance ∅]> σ) {[x := y]}).
  { split.
    - intros r r' [<- <-]%lookup_singleton_Some.
      apply elem_of_dom. rewrite lookup_insert_eq. eauto.
    - intros ra rb r' [<- <-]%lookup_singleton_Some [<- _]%lookup_singleton_Some.
      done. }
  destruct (deepcopy_items_memo _ _ _ _ _ _ Hinit Hitems) as (_ & [_ Hinj] & Hrel).
  pose proof (list_to_map_related _ _ _ Hrel) as Hmap.
  rewrite list_to_map_to_list in Hmap.
  pose proof (Hmap n1) as Hn1. pose proof (Hmap n2) as Hn2.
  rewrite H1 in Hn1. rewrite H2 in Hn2.
  inversion Hn1 as [? a1 Hf1 Ha1 Hb1|]; subst.
  simpl in Hf1. destruct Hf1 as (r1' & -> & Hm1).
  inversion Hn2 as [? a2 Hf2 Ha2 Hb2|]; subst.
  simpl in Hf2. destruct Hf2 as (r2' & -> & Hm2).
  exists r1', r2'. split; [done |]. split; [done |]. split.
  - intros ->. congruence.
  - intros ->. by eapply Hinj.
Qed.

End Copies.

Section Representation.
Context {Field ABLConditions : Type} `{!FieldsModule Field ABLConditions}
        `{!Formatting Field}.

Local Abbreviation Value := (PyValue Field).
Local Abbreviation PyObject := (gmap string (PyValue Field)).

Lemma init_refLevels self (a : @InitArgs Field) (s : PyObject) :
  BoundaryCondition__init__ self a = Ok s ->
  exists rl, s !! "refLevels" = Some rl.
Proof.
  intros (rl & fT & fU & fp & fk & fe & fn & fa & fr & _ & _ & _ & _ & _ & _
          & _ & _ & _ & ->)%init_inv.
  exists rl. by simplify_map_eq.
Qed.

(** The representation of a constructed object: [repr] (and [ToString],
    which is [repr]) returns for every class but the wind-tunnel inlet,
    whose [repr] returns exactly when the velocity derived from the ABL
    conditions has a [Uref]; what is returned begins with the name of the
    class and its type; and an assignment to a property that the [repr] of
    the class does not read leaves it as it was. *)
Theorem X17_repr_of_constructed_object (c : Call) (s : PyObject) :
  run c = Ok s ->
  ToString c s = repr_of c s
  /\ match c with
     | CallWindTunnelInlet abl _ _ _ _ =>
         returns (repr_of c s) <->
         returns (Field_Uref (Field_fromABLConditions
                                fields.AtmBoundaryLayerInletVelocity abl []))
     | _ => returns (repr_of c s)
     end
  /\ (forall str, repr_of c s = Ok str ->
        exists rest,
          str = class_name c +:+ ": " +:+ py_str (kind_of c) +:+ rest)
  /\ (forall x t s', fset x s t = Ok s' -> repr_reads c x = false ->
        repr_of c s' = repr_of c s).
Proof.
  rewrite run_call_args. intros Hinit.
  pose proof (init_type _ _ _ Hinit) as Htype.
  destruct (init_refLevels _ _ _ Hinit) as [rl Hrl].
  destruct (init_slot _ _ _ prop_U Hinit) as (fU & HU & HcU).
  destruct (init_slot _ _ _ prop_p Hinit) as (fp & Hp & _).
  simpl in HU, Hp.
  split; [done |]. split; [| split].
  - destruct c;
      unfold repr_of, BoundaryCondition__repr__,
        FixedInletBoundaryCondition__repr__, FixedOutletBoundaryCondition__repr__,
        WindTunnelInletBoundaryCondition__repr__,
        WindTunnelOutletBoundaryCondition__repr__,
        WindTunnelTopAndSidesBoundaryCondition__repr__, get_U, get_p, getattr;
      rewrite Htype, Hrl, ?HU, ?Hp; try done.
    cbn [arg_of call_args WindTunnelInletBoundaryCondition_args a_U] in HcU.
    rewrite coerce_Field in HcU by done. injection HcU as <-.
    cbn [mbind result_bind getattr_Uref].
    by destruct (Field_Uref _).
  - intros str.
    destruct c;
      unfold repr_of, BoundaryCondition__repr__,
        FixedInletBoundaryCondition__repr__, FixedOutletBoundaryCondition__repr__,
        WindTunnelInletBoundaryCondition__repr__,
        WindTunnelOutletBoundaryCondition__repr__,
        WindTunnelTopAndSidesBoundaryCondition__repr__, get_U, get_p, getattr;
      rewrite Htype, Hrl, ?HU, ?Hp; cbn [mbind result_bind getattr_Uref];
      try (intros [= <-]; eexists; reflexivity).
    destruct (Field_Uref fU); [| discriminate].
    intros [= <-]. eexists; reflexivity.
  - intros x t s' (f & _ & ->)%fset_Ok Hreads.
    destruct c, x; try discriminate Hreads;
      unfold repr_of, BoundaryCondition__repr__,
        FixedInletBoundaryCondition__repr__, FixedOutletBoundaryCondition__repr__,
        WindTunnelInletBoundaryCondition__repr__,
        WindTunnelOutletBoundaryCondition__repr__,
        WindTunnelTopAndSidesBoundaryCondition__repr__, get_U, get_p, getattr;
      cbn [slot_of]; rewrite !lookup_insert_ne by done; reflexivity.
Qed.

End Representation.

(** ** Instances of the further properties *)

Lemma outlet_object_constructed : run outlet_call = Ok outlet_object.
Proof. vm_compute. reflexivity. Qed.

Lemma X1_assigned_value_is_read_back_witness :
  exists f : SField,
    fget prop_U (<["_U" := PField (FromString "fixedValue (1 0 0)")]> ∅)
      = Ok (PField f).
Proof.
  destruct (X1_assigned_value_is_read_back prop_U ∅ (PStr "fixedValue (1 0 0)")
              (<["_U" := PField (FromString "fixedValue (1 0 0)")]> ∅))
    as (f & Hget & _).
  - vm_compute. reflexivity.
  - exists f. exact Hget.
Defined.

Lemma X2_assignment_keeps_the_rest_witness :
  Forall (holds_Field (<["_p" := ZeroGradient]> outlet_object)) field_slots.
Proof.
  apply (X2_assignment_keeps_the_rest prop_p outlet_object PNone
           (<["_p" := ZeroGradient]> outlet_object)).
  - reflexivity.
  - repeat constructor; eexists; vm_compute; reflexivity.
Defined.

Lemma X3_assignments_commute_and_overwrite_witness :
  (s ← fset prop_T (∅ : gmap string SValue) (PStr "fixedValue 300");
   fset prop_U s PNone)
  = (s ← fset prop_U ∅ PNone; fset prop_T s (PStr "fixedValue 300")).
Proof.
  apply (X3_assignments_commute_and_overwrite prop_T prop_U ∅
           (PStr "fixedValue 300") PNone).
  - discriminate.
  - left. exact I.
Defined.

Lemma X4_assigning_own_value_is_identity_witness :
  (v ← fget prop_U outlet_object; fset prop_U outlet_object v)
  = Ok outlet_object.
Proof.
  apply (X4_assigning_own_value_is_identity prop_U outlet_object).
  eexists. vm_compute. reflexivity.
Defined.

Lemma X5_tryGetField_idempotent_witness :
  tryGetField (PField (FromString "zeroGradient"))
  = Ok (PField (FromString "zeroGradient")).
Proof.
  apply (X5_tryGetField_idempotent (PStr "zeroGradient")
           (PField (FromString "zeroGradient"))).
  reflexivity.
Defined.

Lemma X6_tryGetField_exceptions_witness :
  isinstance_Field (PTuple [PInt 1; PInt 0; PInt 0] : SValue) = false.
Proof.
  apply (X6_tryGetField_exceptions (PTuple [PInt 1; PInt 0; PInt 0])
           (InvalidFieldSpec (PTuple [PInt 1; PInt 0; PInt 0]))).
  reflexivity.
Defined.

Lemma X10_slot_holds_coercion_of_its_argument_witness :
  exists f : SField, fget prop_U outlet_object = Ok (PField f).
Proof.
  destruct (X10_slot_holds_coercion_of_its_argument ∅ (call_args outlet_call)
              outlet_object prop_U) as (f & Hget & _).
  - rewrite <- run_call_args. apply outlet_object_constructed.
  - exists f. exact Hget.
Defined.

Lemma X11_type_and_fixed_slots_of_each_class_witness :
  outlet_object !! "type" = Some (PStr "patch").
Proof.
  apply (X11_type_and_fixed_slots_of_each_class outlet_call outlet_object).
  apply outlet_object_constructed.
Defined.


Lemma X15_duplicate_of_a_duplicate_witness :
  exists y σ1 z σ2,
    duplicate outlet_store.2 outlet_store.1 = Some (y, σ1)
    /\ duplicate σ1 y = Some (z, σ2)
    /\ forall name, read σ2 z name = read outlet_store.2 outlet_store.1 name.
Proof.
  destruct (X15_duplicate_of_a_duplicate outlet_store.2 outlet_store.1)
    as (y & σ1 & z & σ2 & Hdup1 & Hdup2 & _ & _ & _ & Hread).
  - eexists. split; [vm_compute; reflexivity |].
    apply map_Forall_to_list. vm_compute. repeat constructor.
  - exists y, σ1, z, σ2. split; [done |]. split; [done |].
    intros name. apply Hread.
Defined.

Lemma X16_duplicate_keeps_sharing_witness :
  exists y σ' d' r1' r2',
    duplicate shared_store 1 = Some (y, σ')
    /\ σ' !! y = Some (Instance d')
    /\ d' !! "_T" = Some (Ref r1') /\ d' !! "_U" = Some (Ref r2')
    /\ r1' = r2'.
Proof.
  assert (H : exists y σ' d',
             duplicate shared_store 1 = Some (y, σ')
             /\ σ' !! y = Some (Instance d')).
  { eexists _, _, _. split; vm_compute; reflexivity. }
  destruct H as (y & σ' & d' & Hdup & Hy).
  destruct (X16_duplicate_keeps_sharing shared_store 1 y σ' shared_dict d'
              "_T" "_U" 0 0 Hdup eq_refl Hy eq_refl eq_refl)
    as (r1' & r2' & H1 & H2 & Hiff).
  exists y, σ', d', r1', r2'. repeat split; try assumption. by apply Hiff.
Defined.

Lemma X17_repr_of_constructed_object_witness :
  returns (repr_of outlet_call outlet_object).
Proof.
  apply (X17_repr_of_constructed_object outlet_call outlet_object).
  apply outlet_object_constructed.
Defined.
